(** * Slumprutt: the route generator of [backend/src/routeGenerator.ts]

    A shallow embedding of the backend of the repository (the geo-math
    helpers, the two waypoint synthesizers, the route assembler, the OSRM
    adapter and the [/api/route] handler), followed by the properties the
    specification states about them.

    Modelling conventions.
    - A JavaScript [number] that holds a measurement (degrees, kilometres,
      radians, seconds) is a real number: arithmetic is exact and every
      value is finite.  Rounding, [NaN] and the infinities of IEEE doubles
      are outside this model.  The doubles of the source follow the model
      up to rounding, except in three places, and the properties below that
      depend on them carry a hypothesis that keeps clear of each:
      for two coordinates that are nearly antipodal the term [a] of
      [calculateDistance] can exceed 1 by rounding, and the source then
      returns [NaN] where the model returns a distance ([clearOfAntipode]);
      at a pole [Math.cos] of the latitude is 6.1e-17 in the source and 0 in
      the model, which matters where the source divides by it;
      and [Math.floor] can fall on the other side of an integer when its
      argument is within rounding of one.
    - A [number] that the program only uses as a counter (a loop index, a
      route id, a number of routes or of waypoints) is an integer of [Z];
      [IZR] injects it where the source mixes it into real arithmetic.
    - [Math.random()] and [fetch] are the two effects of the program.  Their
      outcomes are given by two oracles, indexed by the number of calls made
      so far, and the program threads a [World] that counts the calls. *)

From Stdlib Require Import Reals Lra Lia ZArith List String Bool FinFun.
Import ListNotations.

Open Scope R_scope.

(** ** Numbers and the [Math] object *)

Abbreviation number := R (only parsing).

Module Math.

Definition PI : number := Rtrigo1.PI.
Definition sin (x : number) : number := Rtrigo_def.sin x.
Definition cos (x : number) : number := Rtrigo_def.cos x.
Definition sqrt (x : number) : number := R_sqrt.sqrt x.

(** [Math.atan2(y, x)]: the angle of the point [(x, y)], in [(-PI, PI]]. *)
Definition atan2 (y x : number) : number :=
  if Rlt_dec 0 x then atan (y / x)
  else if Rlt_dec x 0 then
    (if Rle_dec 0 y then atan (y / x) + PI else atan (y / x) - PI)
  else if Rlt_dec 0 y then PI / 2
  else if Rlt_dec y 0 then - (PI / 2)
  else 0.

(** [Math.floor]: the greatest integer below or equal to [x]. *)
Definition floor (x : number) : Z := Int_part x.

(** [Math.max] and [Math.min], which the source applies to counters. *)
Definition max (a b : Z) : Z := Z.max a b.
Definition min (a b : Z) : Z := Z.min a b.

End Math.

(** ** types.ts *)

Record Coordinate : Type := { lat : number; lon : number }.

Module RouteStep.
Record t : Type :=
  { instruction : string; distance : number; duration : number }.
End RouteStep.

Record GeneratedRoute : Type :=
  { id : Z;
    points : list Coordinate;
    waypoints : list Coordinate;
    isLoop : bool;
    distance : option number;
    duration : option number;
    steps : option (list RouteStep.t) }.

(** ** Geo-math helpers *)

(** Haversine distance between two coordinates, in kilometres.  The term
    [a] is not clamped to 1: where the doubles of the source round it above
    1 (two coordinates that are nearly antipodal) the source returns [NaN];
    the properties of this function are stated clear of that. *)
Definition calculateDistance (coord1 coord2 : Coordinate) : number :=
  let R := 6371 in
  let dLat := ((lat coord2 - lat coord1) * Math.PI) / 180 in
  let dLon := ((lon coord2 - lon coord1) * Math.PI) / 180 in
  let a :=
    Math.sin (dLat / 2) * Math.sin (dLat / 2) +
    Math.cos ((lat coord1 * Math.PI) / 180) *
      Math.cos ((lat coord2 * Math.PI) / 180) *
      Math.sin (dLon / 2) *
      Math.sin (dLon / 2) in
  let c := 2 * Math.atan2 (Math.sqrt a) (Math.sqrt (1 - a)) in
  R * c.

(** Total length of a path: the loop of the source adds the distance of
    every pair of consecutive points to [total]. *)
Fixpoint calculateRouteDistance_from (total : number) (points : list Coordinate)
  : number :=
  match points with
  | p :: (q :: _) as rest =>
      calculateRouteDistance_from (total + calculateDistance p q) rest
  | _ => total
  end.

Definition calculateRouteDistance (points : list Coordinate) : number :=
  calculateRouteDistance_from 0 points.

(** ** The external road router (OSRM) as the adapter sees it *)

Module Osrm.

(** The request: the profile and the [lon,lat] pairs that the source
    formats into the URL, in the order of the route's points. *)
Record Url : Type :=
  { profile : string; coords : list (number * number) }.

Module Maneuver.
Record t : Type := { instruction : option string }.
End Maneuver.

Module Step.
Record t : Type :=
  { maneuver : option Maneuver.t;
    name : option string;
    distance : number;
    duration : number }.
End Step.

Module Leg.
Record t : Type := { steps : option (list Step.t) }.
End Leg.

(** A GeoJSON line: [lon, lat] pairs. *)
Module Geometry.
Record t : Type := { coordinates : list (number * number) }.
End Geometry.

Module Route.
Record t : Type :=
  { geometry : Geometry.t;
    legs : option (list Leg.t);
    distance : number;   (* metres *)
    duration : number }. (* seconds *)
End Route.

(** The body of a response.  The fields are optional where the source
    guards their use and present where it reads them unguarded. *)
Record Data : Type := { code : string; routes : option (list Route.t) }.

(** What [await fetch(url)] followed by [await response.json()] does:
    either something in the [try] block throws (the network fails, the
    body does not parse, the body lacks what the source reads unguarded),
    or the body is delivered. *)
Inductive Outcome : Type :=
| Throws
| Json (data : Data).

End Osrm.

(** ** Effects *)

(** The calls to [Math.random()] made so far and the URLs fetched so far. *)
Record World : Type :=
  { randomCalls : nat; fetched : list Osrm.Url }.

Definition M (A : Type) : Type := World -> A * World.

Definition ret {A : Type} (a : A) : M A := fun w => (a, w).

Definition bind {A B : Type} (m : M A) (k : A -> M B) : M B :=
  fun w => let (a, w') := m w in k a w'.

Notation "x <- m ;; k" := (bind m (fun x => k))
  (at level 61, m at next level, right associativity).

(** [for (let i = 0; i < bound; i++) { array.push(body(i)) }] with an
    integer [bound]: the body runs [Z.to_nat bound] times, for
    [i = 0, 1, ...], and each result is pushed at the end of the array. *)
Fixpoint for_push_from {A : Type} (n : nat) (i : Z) (body : Z -> M A)
  (array : list A) : M (list A) :=
  match n with
  | O => ret array
  | S n' => x <- body i ;; for_push_from n' (i + 1)%Z body (array ++ [x])
  end.

Definition for_push {A : Type} (bound : Z) (body : Z -> M A) : M (list A) :=
  for_push_from (Z.to_nat bound) 0%Z body [].

Section Generator.

(** [randomOutcome n] is what the call number [n] of [Math.random()]
    returns. *)
Variable randomOutcome : nat -> number.

Definition Math_random : M number :=
  fun w =>
    (randomOutcome (randomCalls w),
     {| randomCalls := S (randomCalls w); fetched := fetched w |}).

(** Random waypoints between start and end coordinates. *)
Definition generateRandomWaypoints (start end_ : Coordinate) (count : Z)
  : M (list Coordinate) :=
  for_push count (fun _ =>
    r1 <- Math_random ;;
    let lat_ := lat start + r1 * (lat end_ - lat start) in
    r2 <- Math_random ;;
    let lon_ := lon start + r2 * (lon end_ - lon start) in
    let randomOffset := 0.01 in
    r3 <- Math_random ;;
    r4 <- Math_random ;;
    ret {| lat := lat_ + (r3 - 0.5) * randomOffset;
           lon := lon_ + (r4 - 0.5) * randomOffset |}).

(** Waypoints around the start point, for a loop route.  [lonPerKm]
    divides by the cosine of the latitude of [start]: the properties of the
    longitudes are stated for a start that is not on a pole. *)
Definition generateLoopWaypoints (start : Coordinate)
  (targetDistanceKm : number) (variationIndex : Z) : M (list Coordinate) :=
  let numWaypoints := Math.max 3 (Math.min 5 (3 + variationIndex)) in
  let baseRadius := targetDistanceKm / (2 * Math.PI) * 1.5 in
  let latPerKm := 1 / 111 in
  let lonPerKm := 1 / (111 * Math.cos ((lat start * Math.PI) / 180)) in
  let primaryDirection := (IZR variationIndex * (2 * Math.PI)) / 3 in
  for_push numWaypoints (fun i =>
    let baseAngle :=
      (IZR i / IZR numWaypoints) * 2 * Math.PI + primaryDirection in
    r1 <- Math_random ;;
    let angleVariation := (r1 - 0.5) * 0.3 in
    let angle := baseAngle + angleVariation in
    r2 <- Math_random ;;
    let radiusVariation := 0.8 + r2 * 0.4 in
    let radius := baseRadius * radiusVariation in
    ret {| lat := lat start + Math.sin angle * radius * latPerKm;
           lon := lon start + Math.cos angle * radius * lonPerKm |}).

(** Several random routes from [start], back to it or on to [end_]. *)
Definition generateRoutes (start : Coordinate) (end_ : option Coordinate)
  (numRoutes : Z) (distanceKm : number) : M (list GeneratedRoute) :=
  let isLoop := match end_ with None => true | Some _ => false end in
  for_push numRoutes (fun i =>
    wp <- match end_ with
          | None =>
              waypoints <- generateLoopWaypoints start distanceKm i ;;
              ret (waypoints, start :: waypoints ++ [start])
          | Some end_ =>
              let directDistance := calculateDistance start end_ in
              let extraDistance := distanceKm - directDistance in
              let waypointCount :=
                Math.max 1 (Math.floor (extraDistance / 2)) in
              waypoints <-
                generateRandomWaypoints start end_ waypointCount ;;
              ret (waypoints, start :: waypoints ++ [end_])
          end ;;
    let '(waypoints, points) := wp in
    let calculatedDistance := calculateRouteDistance points in
    ret {| id := i;
           points := points;
           waypoints := waypoints;
           isLoop := isLoop;
           distance := Some calculatedDistance;
           duration := None;
           steps := None |}).

End Generator.

(** ** Requests and responses of [POST /api/route] *)

(** The [start] of a request body as it arrives: the object and each of
    its two fields may be missing ([None] stands for [undefined] and for
    [null]). *)
Record RawCoordinate : Type :=
  { raw_lat : option number; raw_lon : option number }.

Record RouteRequest : Type :=
  { req_start : option RawCoordinate;
    req_end : option Coordinate;
    req_mode : option string;
    req_numRoutes : option Z;
    req_distanceKm : option number }.

Inductive ResponseBody : Type :=
| ErrorBody (error : string)
| RouteResponse (routes : list GeneratedRoute) (mode : string).

Record HttpResponse : Type := { status : Z; body : ResponseBody }.

(** ** Road-routing adapter *)

Section Adapter.

(** [routerOutcome n url] is what the router does with the call number [n],
    a request for [url]. *)
Variable routerOutcome : nat -> Osrm.Url -> Osrm.Outcome.

Definition fetch (url : Osrm.Url) : M Osrm.Outcome :=
  fun w =>
    (routerOutcome (List.length (fetched w)) url,
     {| randomCalls := randomCalls w; fetched := fetched w ++ [url] |}).

(** [a || b] on strings that may be absent: the empty string is falsy. *)
Definition or_string (a : option string) (b : string) : string :=
  match a with
  | Some EmptyString => b
  | Some s => s
  | None => b
  end.

Definition stepOf (step : Osrm.Step.t) : RouteStep.t :=
  {| RouteStep.instruction :=
       or_string
         (match Osrm.Step.maneuver step with
          | Some m => Osrm.Maneuver.instruction m
          | None => None
          end)
         ("Continue on " ++ or_string (Osrm.Step.name step) "road")%string;
     RouteStep.distance := Osrm.Step.distance step;
     RouteStep.duration := Osrm.Step.duration step |}.

(** The steps of every leg that has some, in order. *)
Definition extractSteps (osrmRoute : Osrm.Route.t) : list RouteStep.t :=
  match Osrm.Route.legs osrmRoute with
  | Some legs =>
      flat_map
        (fun leg =>
           match Osrm.Leg.steps leg with
           | Some steps => map stepOf steps
           | None => []
           end)
        legs
  | None => []
  end.

Definition osrmProfileOf (mode : string) : string :=
  if (mode =? "car")%string then "driving"
  else if (mode =? "bike")%string then "cycling"
  else "foot".

(** The URL requested for [route]: its points as [lon,lat] pairs. *)
Definition osrmUrl (osrmProfile : string) (route : GeneratedRoute) : Osrm.Url :=
  let coords := map (fun p => (lon p, lat p)) (points route) in
  {| Osrm.profile := osrmProfile; Osrm.coords := coords |}.

(** What the [try] block and its [catch] push for [route], given what
    the call to the router did. *)
Definition routedOrFallback (route : GeneratedRoute) (response : Osrm.Outcome)
  : GeneratedRoute :=
  match response with
  | Osrm.Json data =>
      match (Osrm.code data =? "Ok")%string, Osrm.routes data with
      | true, Some (osrmRoute :: _) =>
          let routedPoints :=
            map (fun coord => {| lon := fst coord; lat := snd coord |})
                (Osrm.Geometry.coordinates (Osrm.Route.geometry osrmRoute)) in
          let steps := extractSteps osrmRoute in
          {| id := id route;
             waypoints := waypoints route;
             isLoop := isLoop route;
             points := routedPoints;
             distance := Some (Osrm.Route.distance osrmRoute / 1000);
             duration := Some (Osrm.Route.duration osrmRoute / 60);
             steps := Some steps |}
      | _, _ =>
          (* OSRM routing failed: fall back to the original route *)
          route
      end
  | Osrm.Throws =>
      (* catch: fall back to the original route *)
      route
  end.

(** The body of the loop of [getRoutedPaths]: one call to the router. *)
Definition routeOne (osrmProfile : string) (route : GeneratedRoute)
  : M GeneratedRoute :=
  response <- fetch (osrmUrl osrmProfile route) ;;
  ret (routedOrFallback route response).

(** [for (const route of routes) { ... routedRoutes.push(...) }] *)
Fixpoint getRoutedPaths_loop (osrmProfile : string)
  (routes routedRoutes : list GeneratedRoute) : M (list GeneratedRoute) :=
  match routes with
  | [] => ret routedRoutes
  | route :: rest =>
      routed <- routeOne osrmProfile route ;;
      getRoutedPaths_loop osrmProfile rest (routedRoutes ++ [routed])
  end.

Definition getRoutedPaths (routes : list GeneratedRoute) (mode : string)
  : M (list GeneratedRoute) :=
  let osrmProfile := osrmProfileOf mode in
  getRoutedPaths_loop osrmProfile routes [].

(** ** The handler of [POST /api/route] *)

Variable randomOutcome : nat -> number.

(** [!x] for a number that may be missing: [undefined] and [0] are falsy. *)
Definition falsy (x : option number) : bool :=
  match x with
  | None => true
  | Some v => if Req_dec_T v 0 then true else false
  end.

(** [!start?.lat || !start?.lon], and the coordinate when the guard lets
    the request through. *)
Definition validStart (start : option RawCoordinate) : option Coordinate :=
  match start with
  | None => None
  | Some s =>
      if falsy (raw_lat s) || falsy (raw_lon s) then None
      else
        match raw_lat s, raw_lon s with
        | Some la, Some lo => Some {| lat := la; lon := lo |}
        | _, _ => None
        end
  end.

Definition default {A : Type} (x : option A) (d : A) : A :=
  match x with Some v => v | None => d end.

(** The handler.  Nothing in the model throws outside the [try] of
    [getRoutedPaths], so the handler's own [catch] (status 500) has no
    counterpart here. *)
Definition postApiRoute (req : RouteRequest) : M HttpResponse :=
  let mode := default (req_mode req) "walk"%string in
  let numRoutes := default (req_numRoutes req) 3%Z in
  let distanceKm := default (req_distanceKm req) 5 in
  match validStart (req_start req) with
  | None =>
      ret {| status := 400%Z;
             body := ErrorBody "Start location with lat/lon required" |}
  | Some start =>
      routes <-
        generateRoutes randomOutcome start (req_end req) numRoutes distanceKm ;;
      routedRoutes <- getRoutedPaths routes mode ;;
      ret {| status := 200%Z; body := RouteResponse routedRoutes mode |}
  end.

End Adapter.

(** ** Definitions that the statements use *)

(** The endpoint that closes a route: [start] again for a loop. *)
Definition lastPoint (start : Coordinate) (end_ : option Coordinate)
  : Coordinate :=
  match end_ with None => start | Some e => e end.

(** The number of waypoints that the assembler asks for, for the route of
    index [i]. *)
Definition waypointsAsked (start : Coordinate) (end_ : option Coordinate)
  (distanceKm : number) (i : Z) : Z :=
  match end_ with
  | None => Math.max 3 (Math.min 5 (3 + i))
  | Some e =>
      Math.max 1 (Math.floor ((distanceKm - calculateDistance start e) / 2))
  end.

(** The routes pushed by the loop of [getRoutedPaths] when the call
    number [n] is the first one it makes. *)
Fixpoint routedFrom (routerOutcome : nat -> Osrm.Url -> Osrm.Outcome)
  (osrmProfile : string) (n : nat) (routes : list GeneratedRoute)
  : list GeneratedRoute :=
  match routes with
  | [] => []
  | route :: rest =>
      routedOrFallback route (routerOutcome n (osrmUrl osrmProfile route))
      :: routedFrom routerOutcome osrmProfile (S n) rest
  end.

(** The three ways in which the call for a route fails: an exception, a
    status code other than "Ok", no first route. *)
Definition callFailed (response : Osrm.Outcome) : Prop :=
  match response with
  | Osrm.Throws => True
  | Osrm.Json data =>
      Osrm.code data <> "Ok"%string \/
      Osrm.routes data = None \/
      Osrm.routes data = Some []
  end.

(** ** Concrete inputs *)

(** The draws 0, 0, 0.5, 0.5, 0, 0, 0.5, 0.5, ... *)
Definition drawsOnStart (n : nat) : number :=
  if (n mod 4 <? 2)%nat then 0 else 0.5.

(** A straight two-point route, and a router that throws on its second
    call and answers "Ok" with a one-segment geometry otherwise. *)
Definition straightRoute (i : Z) : GeneratedRoute :=
  {| id := i;
     points := [ {| lat := 59.33; lon := 18.06 |};
                 {| lat := 59.34; lon := 18.07 |} ];
     waypoints := [];
     isLoop := false;
     distance := Some 1;
     duration := None;
     steps := None |}.

Definition roadRoute : Osrm.Route.t :=
  {| Osrm.Route.geometry :=
       {| Osrm.Geometry.coordinates := [ (18.06, 59.33); (18.07, 59.34) ] |};
     Osrm.Route.legs := None;
     Osrm.Route.distance := 1500;
     Osrm.Route.duration := 1200 |}.

Definition failsOnSecondCall (n : nat) (url : Osrm.Url) : Osrm.Outcome :=
  if (n =? 1)%nat then Osrm.Throws
  else Osrm.Json {| Osrm.code := "Ok"; Osrm.routes := Some [roadRoute] |}.

Definition emptyWorld : World := {| randomCalls := 0; fetched := [] |}.

(** ** Definitions for the further properties *)

(** The term [a] of [calculateDistance]: the haversine of the central
    angle between the two coordinates. *)
Definition haversine (coord1 coord2 : Coordinate) : number :=
  let dLat := ((lat coord2 - lat coord1) * Math.PI) / 180 in
  let dLon := ((lon coord2 - lon coord1) * Math.PI) / 180 in
  Math.sin (dLat / 2) * Math.sin (dLat / 2) +
  Math.cos ((lat coord1 * Math.PI) / 180) *
    Math.cos ((lat coord2 * Math.PI) / 180) *
    Math.sin (dLon / 2) *
    Math.sin (dLon / 2).

(** The pairs of coordinates on which the source computes a distance: both
    latitudes between the poles, which keeps every term of [a] from being
    negative, and [a] clear of 1.  Nearer to the antipode (within 0.12
    degrees of arc) the source's [a] can exceed 1 by rounding;
    [Math.sqrt(1 - a)] is then [NaN], and so is the distance. *)
Definition validLatitude (c : Coordinate) : Prop := -90 <= lat c <= 90.

Definition clearOfAntipode (coord1 coord2 : Coordinate) : Prop :=
  validLatitude coord1 /\ validLatitude coord2 /\
  haversine coord1 coord2 <= 0.999999.

(** The random draws that the route of index [i] costs: two for each loop
    waypoint, four for each point-to-point waypoint. *)
Definition drawsOfRoute (start : Coordinate) (end_ : option Coordinate)
  (distanceKm : number) (i : Z) : nat :=
  match end_ with
  | None => 2 * Z.to_nat (waypointsAsked start None distanceKm i)
  | Some e => 4 * Z.to_nat (waypointsAsked start (Some e) distanceKm i)
  end.

(** A router that answers every request with "Ok" and sends the requested
    coordinates back as the geometry, and a router that is down. *)
Definition echoRouter (n : nat) (url : Osrm.Url) : Osrm.Outcome :=
  Osrm.Json
    {| Osrm.code := "Ok";
       Osrm.routes :=
         Some [ {| Osrm.Route.geometry :=
                     {| Osrm.Geometry.coordinates := Osrm.coords url |};
                   Osrm.Route.legs := None;
                   Osrm.Route.distance := 0;
                   Osrm.Route.duration := 0 |} ] |}.

Definition routerDown (n : nat) (url : Osrm.Url) : Osrm.Outcome := Osrm.Throws.

(** The loop waypoint in the direction [angle], [radius] kilometres away
    from [start], for a [start] that is not on a pole. *)
Definition loopWaypoint (start : Coordinate) (angle radius : number)
  : Coordinate :=
  {| lat := lat start + Math.sin angle * radius * (1 / 111);
     lon := lon start
            + Math.cos angle * radius
              * (1 / (111 * Math.cos ((lat start * Math.PI) / 180))) |}.

(** * Properties *)

(** ** Geo-math helpers *)

Lemma haversine_opp (u : R) :
  sin (- u / 2) * sin (- u / 2) = sin (u / 2) * sin (u / 2).
Proof.
  replace (- u / 2) with (- (u / 2)) by lra.
  rewrite sin_neg. ring.
Qed.

Lemma atan2_0_1 : Math.atan2 0 1 = 0.
Proof.
  unfold Math.atan2.
  destruct (Rlt_dec 0 1) as [_ | H]; [ | exfalso; lra ].
  replace (0 / 1) with 0 by lra. apply atan_0.
Qed.

(** ** The [for] loop that pushes *)

Lemma for_push_from_length {A : Type} (body : Z -> M A) :
  forall n i array w,
    List.length (fst (for_push_from n i body array w)) =
    (List.length array + n)%nat.
Proof.
  induction n as [| n IH]; intros i array w; simpl.
  - lia.
  - unfold bind. destruct (body i w) as [x w1].
    rewrite IH, length_app. simpl. lia.
Qed.

(** Whatever holds of the value of the body at index [i], in every world,
    holds of the element pushed at position [i]. *)
Lemma for_push_from_spec {A : Type} (P : Z -> A -> Prop) (body : Z -> M A) :
  (forall i w, P i (fst (body i w))) ->
  forall n i array w,
  exists xs,
    fst (for_push_from n i body array w) = array ++ xs /\
    List.length xs = n /\
    forall k x, nth_error xs k = Some x -> P (i + Z.of_nat k)%Z x.
Proof.
  intros HP. induction n as [| n IH]; intros i array w; simpl.
  - exists []. rewrite app_nil_r. repeat split; auto.
    intros [| k] x; discriminate.
  - unfold bind. destruct (body i w) as [x w1] eqn:E.
    destruct (IH (i + 1)%Z (array ++ [x]) w1) as (xs & Hxs & Hlen & Hnth).
    exists (x :: xs). rewrite Hxs, <- app_assoc. simpl.
    repeat split; auto.
    intros [| k] y Hk; simpl in Hk.
    + injection Hk as <-. replace (i + Z.of_nat 0)%Z with i by lia.
      specialize (HP i w). rewrite E in HP. exact HP.
    + replace (i + Z.of_nat (S k))%Z with (i + 1 + Z.of_nat k)%Z by lia.
      auto.
Qed.

(** A field of the pushed elements that only depends on the index. *)
Lemma for_push_from_map {A B : Type} (f : A -> B) (g : Z -> B)
  (body : Z -> M A) :
  (forall i w, f (fst (body i w)) = g i) ->
  forall n i array w,
    map f (fst (for_push_from n i body array w)) =
    map f array ++ map (fun k => g (i + Z.of_nat k)%Z) (seq 0 n).
Proof.
  intros Hf. induction n as [| n IH]; intros i array w; simpl.
  - now rewrite app_nil_r.
  - unfold bind. destruct (body i w) as [x w1] eqn:E.
    rewrite IH, map_app, <- app_assoc. simpl. f_equal. f_equal.
    + specialize (Hf i w). rewrite E in Hf. simpl in Hf.
      rewrite Hf. f_equal. lia.
    + rewrite <- seq_shift, map_map. apply map_ext. intros k.
      f_equal. lia.
Qed.

Lemma for_push_nonpositive {A : Type} (body : Z -> M A) (bound : Z) (w : World) :
  (bound <= 0)%Z -> for_push bound body w = ([], w).
Proof.
  intros H. unfold for_push.
  replace (Z.to_nat bound) with 0%nat by lia. reflexivity.
Qed.

(** ** Route assembler *)

Lemma generateRoutes_id_body randomOutcome start end_ distanceKm :
  forall numRoutes w,
    map id (fst (generateRoutes randomOutcome start end_ numRoutes distanceKm w))
    = map Z.of_nat (seq 0 (Z.to_nat numRoutes)).
Proof.
  intros numRoutes w. unfold generateRoutes, for_push.
  rewrite for_push_from_map with (g := fun i => i).
  - reflexivity.
  - intros i w0. unfold bind.
    destruct end_ as [e |].
    + destruct (generateRandomWaypoints _ _ _ _ _) as [wps w1]. reflexivity.
    + destruct (generateLoopWaypoints _ _ _ _ _) as [wps w1]. reflexivity.
Qed.

(** C4. For a positive integer [N], [generateRoutes] returns exactly [N]
    routes, their ids are the distinct values 0..N-1 in order of position,
    and every route has [isLoop] true when [end] is absent and false when
    it is present. *)
Theorem generateRoutes_count_ids_isLoop :
  forall randomOutcome start end_ (N : Z) (D : number) (w : World),
    (0 < N)%Z ->
    let routes := fst (generateRoutes randomOutcome start end_ N D w) in
    Z.of_nat (List.length routes) = N /\
    map id routes = map Z.of_nat (seq 0 (Z.to_nat N)) /\
    NoDup (map id routes) /\
    Forall (fun route =>
              isLoop route = match end_ with None => true | Some _ => false end)
           routes.
Proof.
  intros randomOutcome start end_ N D w HN routes.
  assert (Hids : map id routes = map Z.of_nat (seq 0 (Z.to_nat N)))
    by apply generateRoutes_id_body.
  split; [ | split; [ exact Hids | split ] ].
  - subst routes. unfold generateRoutes, for_push.
    rewrite for_push_from_length. simpl. lia.
  - rewrite Hids. apply Injective_map_NoDup.
    + intros x y Hxy. lia.
    + apply seq_NoDup.
  - subst routes. unfold generateRoutes, for_push.
    match goal with
    | |- Forall ?P (fst (for_push_from ?n ?i ?body ?a ?w)) =>
        assert (Hbody : forall (j : Z) w0, P (fst (body j w0)));
        [ | destruct (for_push_from_spec (fun _ => P) body Hbody n i a w)
              as (xs & Hxs & _ & Hnth) ]
    end.
    + intros j w0. unfold bind.
      destruct end_ as [e |].
      * destruct (generateRandomWaypoints _ _ _ _ _) as [wps w1]. reflexivity.
      * destruct (generateLoopWaypoints _ _ _ _ _) as [wps w1]. reflexivity.
    + rewrite Hxs. simpl. apply Forall_forall. intros r Hr.
      apply In_nth_error in Hr. destruct Hr as [k Hk]. eauto.
Qed.

Lemma generateRoutes_count_ids_isLoop_witness :
  (0 < 2)%Z /\
  let routes :=
    fst (generateRoutes (fun _ => 0) {| lat := 1; lon := 1 |} None 2 5
           {| randomCalls := 0; fetched := [] |}) in
  Z.of_nat (List.length routes) = 2%Z /\
  map id routes = [0%Z; 1%Z] /\
  NoDup (map id routes) /\
  Forall (fun route => isLoop route = true) routes.
Proof.
  split; [ lia | ].
  apply (generateRoutes_count_ids_isLoop (fun _ => 0) {| lat := 1; lon := 1 |}
           None 2 5 {| randomCalls := 0; fetched := [] |}).
  lia.
Defined.

(** C10. For an integer [numRoutes <= 0], [generateRoutes] returns the
    empty array, without an error and without a random draw. *)
Theorem generateRoutes_nonpositive :
  forall randomOutcome start end_ (numRoutes : Z) (distanceKm : number)
         (w : World),
    (numRoutes <= 0)%Z ->
    generateRoutes randomOutcome start end_ numRoutes distanceKm w = ([], w).
Proof.
  intros. unfold generateRoutes. now apply for_push_nonpositive.
Qed.

Lemma generateRoutes_nonpositive_witness :
  (-2 <= 0)%Z /\
  generateRoutes (fun _ => 0) {| lat := 1; lon := 1 |} None (-2) 5
    {| randomCalls := 0; fetched := [] |}
  = ([], {| randomCalls := 0; fetched := [] |}).
Proof.
  split; [ lia | ].
  apply (generateRoutes_nonpositive (fun _ => 0) {| lat := 1; lon := 1 |}
           None (-2) 5 {| randomCalls := 0; fetched := [] |}).
  lia.
Defined.

Lemma generateLoopWaypoints_length randomOutcome start targetDistanceKm
  variationIndex w :
  List.length
    (fst (generateLoopWaypoints randomOutcome start targetDistanceKm
            variationIndex w))
  = Z.to_nat (Math.max 3 (Math.min 5 (3 + variationIndex))).
Proof.
  unfold generateLoopWaypoints, for_push.
  now rewrite for_push_from_length.
Qed.

Lemma generateRandomWaypoints_length randomOutcome start end_ count w :
  List.length (fst (generateRandomWaypoints randomOutcome start end_ count w))
  = Z.to_nat count.
Proof.
  unfold generateRandomWaypoints, for_push.
  now rewrite for_push_from_length.
Qed.

(** Every assembled route is [start], the synthesized waypoints, and the
    closing point; the synthesizer was asked for [waypointsAsked] points. *)
Lemma generateRoutes_route_shape randomOutcome start end_ numRoutes distanceKm
  w k route :
  nth_error
    (fst (generateRoutes randomOutcome start end_ numRoutes distanceKm w)) k
  = Some route ->
  points route = start :: waypoints route ++ [lastPoint start end_] /\
  List.length (waypoints route)
  = Z.to_nat (waypointsAsked start end_ distanceKm (Z.of_nat k)).
Proof.
  unfold generateRoutes, for_push.
  set (P := fun (j : Z) (r : GeneratedRoute) =>
              points r = start :: waypoints r ++ [lastPoint start end_] /\
              List.length (waypoints r)
              = Z.to_nat (waypointsAsked start end_ distanceKm j)).
  match goal with
  | |- nth_error (fst (for_push_from ?n ?i ?body ?a ?w)) _ = _ -> _ =>
      assert (Hbody : forall j w0, P j (fst (body j w0)));
      [ | destruct (for_push_from_spec P body Hbody n i a w)
            as (xs & Hxs & _ & Hnth) ]
  end.
  - intros j w0. unfold P, bind, waypointsAsked, lastPoint.
    destruct end_ as [e |].
    + pose proof (generateRandomWaypoints_length randomOutcome start e
        (Math.max 1 (Math.floor ((distanceKm - calculateDistance start e) / 2)))
        w0) as Hlen.
      destruct (generateRandomWaypoints _ _ _ _ _) as [wps w1].
      simpl in *. auto.
    + pose proof (generateLoopWaypoints_length randomOutcome start distanceKm
                    j w0) as Hlen.
      destruct (generateLoopWaypoints _ _ _ _ _) as [wps w1].
      simpl in *. auto.
  - rewrite Hxs. simpl. intros Hk. apply Hnth in Hk. exact Hk.
Qed.

Lemma nth_error_last_app {A : Type} (x y : A) (l : list A) :
  nth_error (x :: l ++ [y]) (List.length (x :: l ++ [y]) - 1) = Some y.
Proof.
  change (x :: l ++ [y]) with ((x :: l) ++ [y]).
  rewrite length_app, nth_error_app2 by (simpl; lia).
  replace (List.length (x :: l) + List.length [y] - 1 - List.length (x :: l))%nat
    with 0%nat by (simpl; lia).
  reflexivity.
Qed.

Lemma generateRoutes_length randomOutcome start end_ numRoutes distanceKm w :
  List.length
    (fst (generateRoutes randomOutcome start end_ numRoutes distanceKm w))
  = Z.to_nat numRoutes.
Proof.
  unfold generateRoutes, for_push. now rewrite for_push_from_length.
Qed.

Lemma generateRoutes_nth randomOutcome start end_ numRoutes distanceKm w i :
  (0 <= i < numRoutes)%Z ->
  exists route,
    nth_error
      (fst (generateRoutes randomOutcome start end_ numRoutes distanceKm w))
      (Z.to_nat i)
    = Some route.
Proof.
  intros Hi.
  destruct (nth_error _ (Z.to_nat i)) as [route |] eqn:E; [ eauto | ].
  apply nth_error_None in E. rewrite generateRoutes_length in E. lia.
Qed.

(** C2. A loop route produced by [generateRoutes] (no [end]) for a target
    distance above 0 and a variation index [i] in 0, 1, 2, ... has
    [clamp(3 + i, 3, 5)] waypoints, hence between 3 and 5, and the first and
    the last of its points are both [start]. *)
Theorem loop_route_waypoint_count_and_ends :
  forall randomOutcome (start : Coordinate) (targetDistanceKm : number)
         (numRoutes variationIndex : Z) (w : World),
    targetDistanceKm > 0 ->
    (0 <= variationIndex < numRoutes)%Z ->
    (forall w0,
       Z.of_nat
         (List.length
            (fst (generateLoopWaypoints randomOutcome start targetDistanceKm
                    variationIndex w0)))
       = Math.max 3 (Math.min 5 (3 + variationIndex))) /\
    exists route,
      nth_error
        (fst (generateRoutes randomOutcome start None numRoutes
                targetDistanceKm w))
        (Z.to_nat variationIndex)
      = Some route /\
      Z.of_nat (List.length (waypoints route))
      = Math.max 3 (Math.min 5 (3 + variationIndex)) /\
      (3 <= Z.of_nat (List.length (waypoints route)) <= 5)%Z /\
      nth_error (points route) 0 = Some start /\
      nth_error (points route) (List.length (points route) - 1) = Some start.
Proof.
  intros randomOutcome start D N i w HD Hi. split.
  - intros w0. rewrite generateLoopWaypoints_length.
    unfold Math.max, Math.min. lia.
  - destruct (generateRoutes_nth randomOutcome start None N D w i Hi)
      as [route Hroute].
    exists route. split; [ exact Hroute | ].
    apply generateRoutes_route_shape in Hroute.
    destruct Hroute as [Hpoints Hlen].
    unfold waypointsAsked, lastPoint, Math.max, Math.min in *.
    rewrite Hlen, Hpoints.
    repeat split; try lia.
    apply nth_error_last_app.
Qed.

Lemma loop_route_waypoint_count_and_ends_witness :
  5 > 0 /\ (0 <= 1 < 2)%Z /\
  exists route,
    nth_error
      (fst (generateRoutes (fun _ => 0) {| lat := 59.33; lon := 18.06 |} None
              2 5 {| randomCalls := 0; fetched := [] |}))
      1
    = Some route /\
    Z.of_nat (List.length (waypoints route)) = 4%Z /\
    (3 <= Z.of_nat (List.length (waypoints route)) <= 5)%Z /\
    nth_error (points route) 0 = Some {| lat := 59.33; lon := 18.06 |} /\
    nth_error (points route) (List.length (points route) - 1)
    = Some {| lat := 59.33; lon := 18.06 |}.
Proof.
  split; [ lra | split; [ lia | ] ].
  apply (loop_route_waypoint_count_and_ends (fun _ => 0)
           {| lat := 59.33; lon := 18.06 |} 5 2 1
           {| randomCalls := 0; fetched := [] |}); [ lra | lia ].
Defined.

(** ** The point-to-point scenario of the specification *)

Lemma PI_bounds : 3 < PI < 3.4.
Proof.
  split.
  - pose proof PI2_3_2. lra.
  - pose proof (PI_ineq 2) as [_ H].
    unfold sum_f_R0, tg_alt, PI_tg in H. simpl in H. lra.
Qed.

(** On a small positive angle [t], the haversine term [sin t * sin t] gives
    back [t]. *)
Lemma atan2_sqrt_haversine (t : R) :
  0 <= t < PI / 2 ->
  Math.atan2 (Math.sqrt (sin t * sin t)) (Math.sqrt (1 - sin t * sin t)) = t.
Proof.
  intros Ht. pose proof PI_bounds as HPI.
  assert (Hsin : 0 <= sin t) by (apply sin_ge_0; lra).
  assert (Hcos : 0 < cos t) by (apply cos_gt_0; lra).
  unfold Math.sqrt.
  rewrite sqrt_square by exact Hsin.
  replace (1 - sin t * sin t) with (cos t * cos t)
    by (pose proof (sin2_cos2 t) as H; unfold Rsqr in H; lra).
  rewrite sqrt_square by lra.
  unfold Math.atan2.
  destruct (Rlt_dec 0 (cos t)) as [_ | H]; [ | contradiction ].
  fold (tan t). apply atan_tan. lra.
Qed.

Lemma calculateDistance_example :
  calculateDistance {| lat := 0; lon := 0 |} {| lat := 0; lon := 0.09 |}
  = 6371 * (0.09 * PI / 180).
Proof.
  pose proof PI_bounds as HPI.
  unfold calculateDistance, Math.sin, Math.cos, Math.PI. simpl.
  replace ((0 - 0) * PI / 180 / 2) with 0 by lra.
  replace (0 * PI / 180) with 0 by lra.
  rewrite sin_0, cos_0.
  set (t := (0.09 - 0) * PI / 180 / 2).
  replace (0 * 0 + 1 * 1 * sin t * sin t) with (sin t * sin t) by ring.
  rewrite atan2_sqrt_haversine by (unfold t; lra).
  unfold t. lra.
Qed.

Lemma waypointCount_example :
  Math.max 1
    (Math.floor
       ((15 - calculateDistance {| lat := 0; lon := 0 |}
                {| lat := 0; lon := 0.09 |}) / 2))
  = 2%Z.
Proof.
  pose proof PI_bounds as HPI.
  rewrite calculateDistance_example. unfold Math.floor, Math.max.
  rewrite <- (Int_part_spec _ 2); [ reflexivity | ]. lra.
Qed.

(** ** Loop synthesizer *)

(** C5. Whatever the random draws (each in [0, 1)), for a start that is not
    on a pole (the formula divides by the cosine of its latitude), the i-th
    loop waypoint is [start] moved by [sin angle * radius] kilometres of
    latitude and [cos angle * radius] kilometres of longitude, where [angle]
    is [(i / numWaypoints) * 2 PI + variationIndex * (2 PI / 3) + delta] for
    some [delta] in [-0.15, 0.15] and [radius] is
    [targetDistanceKm / (2 PI) * 1.5 * f] for some [f] in [0.8, 1.2]. *)
Theorem loop_waypoint_formula :
  forall randomOutcome (start : Coordinate) (targetDistanceKm : number)
         (variationIndex : Z) (w : World) (i : Z),
    (forall n, 0 <= randomOutcome n < 1) ->
    cos (lat start * PI / 180) <> 0 ->
    (0 <= i < Math.max 3 (Math.min 5 (3 + variationIndex)))%Z ->
    let numWaypoints := Math.max 3 (Math.min 5 (3 + variationIndex)) in
    exists delta f : R,
      - 0.15 <= delta <= 0.15 /\
      0.8 <= f <= 1.2 /\
      let angle :=
        IZR i / IZR numWaypoints * (2 * PI)
        + IZR variationIndex * (2 * PI / 3) + delta in
      let radius := targetDistanceKm / (2 * PI) * 1.5 * f in
      nth_error
        (fst (generateLoopWaypoints randomOutcome start targetDistanceKm
                variationIndex w))
        (Z.to_nat i)
      = Some
          {| lat := lat start + sin angle * radius * (1 / 111);
             lon := lon start
                    + cos angle * radius
                      * (1 / (111 * cos (lat start * PI / 180))) |}.
Proof.
  intros randomOutcome start D vi w i Hrange _ Hi numWaypoints.
  set (formula := fun (j : Z) (delta f : R) =>
    {| lat := lat start
              + sin (IZR j / IZR numWaypoints * (2 * PI)
                     + IZR vi * (2 * PI / 3) + delta)
                * (D / (2 * PI) * 1.5 * f) * (1 / 111);
       lon := lon start
              + cos (IZR j / IZR numWaypoints * (2 * PI)
                     + IZR vi * (2 * PI / 3) + delta)
                * (D / (2 * PI) * 1.5 * f)
                * (1 / (111 * cos (lat start * PI / 180))) |}).
  set (P := fun (j : Z) (p : Coordinate) =>
    exists delta f : R,
      - 0.15 <= delta <= 0.15 /\ 0.8 <= f <= 1.2 /\ p = formula j delta f).
  pose proof (generateLoopWaypoints_length randomOutcome start D vi w) as Hlen.
  fold numWaypoints in Hlen.
  revert Hlen. unfold generateLoopWaypoints, for_push. fold numWaypoints.
  match goal with
  | |- context [for_push_from ?n ?i0 ?body ?a ?w] =>
      assert (Hbody : forall j w0, P j (fst (body j w0)));
      [ | destruct (for_push_from_spec P body Hbody n i0 a w)
            as (xs & Hxs & _ & Hnth) ]
  end.
  - intros j w0. unfold bind, Math_random, ret. simpl.
    pose proof (Hrange (randomCalls w0)) as H1.
    pose proof (Hrange (S (randomCalls w0))) as H2.
    exists ((randomOutcome (randomCalls w0) - 0.5) * 0.3),
           (0.8 + randomOutcome (S (randomCalls w0)) * 0.4).
    split; [ lra | split; [ lra | ] ].
    unfold formula, Math.sin, Math.cos, Math.PI.
    f_equal;
      match goal with
      | |- _ + ?g ?a * _ * _ = _ + ?g ?b * _ * _ =>
          replace a with b by (unfold Rdiv; ring)
      end; reflexivity.
  - rewrite Hxs. simpl. intros Hlen.
    destruct (nth_error xs (Z.to_nat i)) as [p |] eqn:E.
    + apply Hnth in E. replace (0 + Z.of_nat (Z.to_nat i))%Z with i in E by lia.
      destruct E as (delta & f & Hd & Hf & ->).
      exists delta, f. repeat split; try tauto.
    + apply nth_error_None in E. lia.
Qed.

Lemma cos_between_poles (x : R) : -90 < x < 90 -> 0 < cos (x * PI / 180).
Proof.
  intros Hx. pose proof PI_bounds as HPI. apply cos_gt_0; nra.
Qed.

Lemma loop_waypoint_formula_witness :
  (forall n : nat, 0 <= (fun _ : nat => 0.5) n < 1) /\
  cos (59.33 * PI / 180) <> 0 /\
  (0 <= 1 < Math.max 3 (Math.min 5 (3 + 0)))%Z /\
  exists delta f : R,
    - 0.15 <= delta <= 0.15 /\
    0.8 <= f <= 1.2 /\
    nth_error
      (fst (generateLoopWaypoints (fun _ => 0.5)
              {| lat := 59.33; lon := 18.06 |} 4 0
              {| randomCalls := 0; fetched := [] |}))
      1
    = Some
        {| lat := 59.33
                  + sin (1 / 3 * (2 * PI) + 0 * (2 * PI / 3) + delta)
                    * (4 / (2 * PI) * 1.5 * f) * (1 / 111);
           lon := 18.06
                  + cos (1 / 3 * (2 * PI) + 0 * (2 * PI / 3) + delta)
                    * (4 / (2 * PI) * 1.5 * f)
                    * (1 / (111 * cos (59.33 * PI / 180))) |}.
Proof.
  assert (Hrange : forall n : nat, 0 <= (fun _ : nat => 0.5) n < 1)
    by (intros n; lra).
  assert (Hcos : cos (59.33 * PI / 180) <> 0).
  { apply Rgt_not_eq. apply cos_between_poles. lra. }
  assert (Hi : (0 <= 1 < Math.max 3 (Math.min 5 (3 + 0)))%Z)
    by (unfold Math.max, Math.min; lia).
  split; [ exact Hrange | split; [ exact Hcos | split; [ exact Hi | ] ] ].
  exact (loop_waypoint_formula (fun _ => 0.5) {| lat := 59.33; lon := 18.06 |}
           4 0%Z {| randomCalls := 0; fetched := [] |} 1%Z Hrange Hcos Hi).
Defined.

(** ** Waypoints against the endpoints *)

(** C9, as stated, fails: between (0, 0) and (0, 0.09), with a target of
    15 km, the draws 0, 0, 0.5, 0.5 put the first waypoint on [start]. *)
Lemma waypoint_on_start_counterexample :
  (forall n, 0 <= drawsOnStart n < 1) /\
  exists route,
    In route
      (fst (generateRoutes drawsOnStart {| lat := 0; lon := 0 |}
              (Some {| lat := 0; lon := 0.09 |}) 1 15
              {| randomCalls := 0; fetched := [] |})) /\
    In {| lat := 0; lon := 0 |} (waypoints route).
Proof.
  split.
  - intros n. unfold drawsOnStart.
    destruct (n mod 4 <? 2)%nat; lra.
  - unfold generateRoutes, generateRandomWaypoints.
    rewrite waypointCount_example.
    eexists. split.
    + left. reflexivity.
    + left. cbn. unfold drawsOnStart. cbn. f_equal; lra.
Qed.

(** With a target distance of 0 the loop synthesizer puts every waypoint
    on [start], whatever the draws. *)
Example loop_waypoints_on_start_when_distance_is_0 :
  forall randomOutcome (start : Coordinate) (variationIndex : Z) (w : World),
    Forall (fun p => p = start)
      (fst (generateLoopWaypoints randomOutcome start 0 variationIndex w)).
Proof.
  intros randomOutcome start vi w.
  unfold generateLoopWaypoints, for_push.
  match goal with
  | |- Forall ?Q (fst (for_push_from ?n ?i0 ?body ?a ?w)) =>
      assert (Hbody : forall (j : Z) w0, Q (fst (body j w0)));
      [ | destruct (for_push_from_spec (fun _ => Q) body Hbody n i0 a w)
            as (xs & Hxs & _ & Hnth) ]
  end.
  - intros j w0. unfold bind, Math_random, ret. simpl.
    destruct start as [la lo]. simpl. f_equal; unfold Rdiv; ring.
  - rewrite Hxs. simpl. apply Forall_forall. intros p Hp.
    apply In_nth_error in Hp. destruct Hp as [k Hk]. eauto.
Qed.

(** ** Road-routing adapter *)

Lemma getRoutedPaths_loop_spec routerOutcome osrmProfile :
  forall routes routedRoutes w,
    getRoutedPaths_loop routerOutcome osrmProfile routes routedRoutes w
    = (routedRoutes
       ++ routedFrom routerOutcome osrmProfile (List.length (fetched w)) routes,
       {| randomCalls := randomCalls w;
          fetched := fetched w ++ map (osrmUrl osrmProfile) routes |}).
Proof.
  induction routes as [| route rest IH]; intros acc w; simpl.
  - unfold ret. rewrite !app_nil_r. now destruct w.
  - unfold bind, routeOne, fetch, bind, ret. rewrite IH. simpl.
    rewrite length_app, <- !app_assoc. simpl.
    now rewrite Nat.add_1_r.
Qed.

Lemma routedFrom_nth routerOutcome osrmProfile :
  forall routes n k,
    nth_error (routedFrom routerOutcome osrmProfile n routes) k
    = option_map
        (fun route =>
           routedOrFallback route
             (routerOutcome (n + k)%nat (osrmUrl osrmProfile route)))
        (nth_error routes k).
Proof.
  induction routes as [| route rest IH]; intros n [| k]; simpl; auto.
  - now rewrite Nat.add_0_r.
  - rewrite IH. now rewrite Nat.add_succ_r.
Qed.

Lemma getRoutedPaths_nth routerOutcome routes mode w k :
  nth_error (fst (getRoutedPaths routerOutcome routes mode w)) k
  = option_map
      (fun route =>
         routedOrFallback route
           (routerOutcome (List.length (fetched w) + k)%nat
              (osrmUrl (osrmProfileOf mode) route)))
      (nth_error routes k).
Proof.
  unfold getRoutedPaths. rewrite getRoutedPaths_loop_spec. simpl.
  apply routedFrom_nth.
Qed.

Lemma routedOrFallback_id route response :
  id (routedOrFallback route response) = id route.
Proof.
  destruct response as [| data]; simpl; auto.
  destruct (Osrm.code data =? "Ok")%string; auto.
  destruct (Osrm.routes data) as [[| osrmRoute rest] |]; auto.
Qed.

Lemma routedFrom_ids routerOutcome osrmProfile :
  forall routes n,
    map id (routedFrom routerOutcome osrmProfile n routes) = map id routes.
Proof.
  induction routes as [| route rest IH]; intros n; simpl; [ reflexivity | ].
  now rewrite routedOrFallback_id, IH.
Qed.

Lemma routedOrFallback_failed route response :
  callFailed response -> routedOrFallback route response = route.
Proof.
  destruct response as [| data]; simpl; auto.
  intros [Hcode | [Hroutes | Hroutes]].
  - apply String.eqb_neq in Hcode. now rewrite Hcode.
  - rewrite Hroutes. now destruct (Osrm.code data =? "Ok")%string.
  - rewrite Hroutes. now destruct (Osrm.code data =? "Ok")%string.
Qed.

Lemma generateRoutes_no_duration_no_steps randomOutcome start end_ numRoutes
  distanceKm w :
  Forall (fun route => duration route = None /\ steps route = None)
    (fst (generateRoutes randomOutcome start end_ numRoutes distanceKm w)).
Proof.
  unfold generateRoutes, for_push.
  match goal with
  | |- Forall ?Q (fst (for_push_from ?n ?i0 ?body ?a ?w)) =>
      assert (Hbody : forall (j : Z) w0, Q (fst (body j w0)));
      [ | destruct (for_push_from_spec (fun _ => Q) body Hbody n i0 a w)
            as (xs & Hxs & _ & Hnth) ]
  end.
  - intros j w0. unfold bind.
    destruct end_ as [e |].
    + destruct (generateRandomWaypoints _ _ _ _ _) as [wps w1]. now simpl.
    + destruct (generateLoopWaypoints _ _ _ _ _) as [wps w1]. now simpl.
  - rewrite Hxs. simpl. apply Forall_forall. intros r Hr.
    apply In_nth_error in Hr. destruct Hr as [k Hk]. eauto.
Qed.

(** C1. Whatever the router does, [getRoutedPaths] returns as many routes
    as it was given, in the same order (the ids match position by
    position); a route whose call failed (exception, status other than
    "Ok", no first route) comes out as it went in, so without [duration]
    and [steps] for a route that [generateRoutes] made; and what comes out
    at a position depends on the outcome of that route's own call only. *)
Theorem getRoutedPaths_fallback_per_route :
  forall routerOutcome (routes : list GeneratedRoute) (mode : string)
         (w : World),
    let routed := fst (getRoutedPaths routerOutcome routes mode w) in
    let outcome := fun (k : nat) (route : GeneratedRoute) =>
      routerOutcome (List.length (fetched w) + k)%nat
        (osrmUrl (osrmProfileOf mode) route) in
    List.length routed = List.length routes /\
    map id routed = map id routes /\
    (forall k route,
        nth_error routes k = Some route ->
        callFailed (outcome k route) ->
        nth_error routed k = Some route) /\
    (forall randomOutcome start end_ numRoutes distanceKm w0 k route,
        routes
        = fst (generateRoutes randomOutcome start end_ numRoutes distanceKm w0)
        ->
        nth_error routes k = Some route ->
        callFailed (outcome k route) ->
        exists same,
          nth_error routed k = Some same /\ same = route /\
          duration same = None /\ steps same = None) /\
    (forall routerOutcome' k route,
        nth_error routes k = Some route ->
        routerOutcome' (List.length (fetched w) + k)%nat
          (osrmUrl (osrmProfileOf mode) route)
        = outcome k route ->
        nth_error (fst (getRoutedPaths routerOutcome' routes mode w)) k
        = nth_error routed k).
Proof.
  intros routerOutcome routes mode w routed outcome.
  assert (Hnth : forall k route,
             nth_error routes k = Some route ->
             nth_error routed k
             = Some (routedOrFallback route (outcome k route))).
  { intros k route Hk. unfold routed.
    now rewrite getRoutedPaths_nth, Hk. }
  assert (Hids : map id routed = map id routes).
  { unfold routed, getRoutedPaths. rewrite getRoutedPaths_loop_spec. simpl.
    apply routedFrom_ids. }
  split; [ | split; [ exact Hids | split; [ | split ] ] ].
  - rewrite <- (length_map id routed), Hids. apply length_map.
  - intros k route Hk Hfail.
    rewrite (Hnth k route Hk). now rewrite routedOrFallback_failed.
  - intros randomOutcome start end_ N D w0 k route Hgen Hk Hfail.
    exists route. rewrite (Hnth k route Hk), routedOrFallback_failed by auto.
    split; [ reflexivity | split; [ reflexivity | ] ].
    pose proof (generateRoutes_no_duration_no_steps randomOutcome start end_
                  N D w0) as Hall.
    rewrite <- Hgen in Hall. rewrite Forall_forall in Hall.
    apply Hall. eapply nth_error_In. exact Hk.
  - intros routerOutcome' k route Hk Hsame.
    rewrite (Hnth k route Hk), getRoutedPaths_nth, Hk. simpl.
    now rewrite Hsame.
Qed.

Lemma getRoutedPaths_fallback_per_route_witness :
  let routes := [straightRoute 0; straightRoute 1; straightRoute 2] in
  let routed := fst (getRoutedPaths failsOnSecondCall routes "walk" emptyWorld) in
  nth_error routes 1 = Some (straightRoute 1) /\
  callFailed (failsOnSecondCall 1 (osrmUrl "foot" (straightRoute 1))) /\
  List.length routed = 3%nat /\
  map id routed = [0%Z; 1%Z; 2%Z] /\
  nth_error routed 1 = Some (straightRoute 1).
Proof.
  intros routes routed.
  destruct (getRoutedPaths_fallback_per_route failsOnSecondCall routes "walk"
              emptyWorld) as (Hlen & Hids & Hfail & _).
  split; [ reflexivity | split; [ exact I | ] ].
  split; [ exact Hlen | split; [ exact Hids | ] ].
  apply (Hfail 1%nat (straightRoute 1)); [ reflexivity | exact I ].
Defined.

(** C6. For a route whose call succeeds (status "Ok" and a first route),
    [getRoutedPaths] keeps [id], [isLoop] and [waypoints], and replaces
    [points] by the returned geometry, each [lon, lat] pair turned into a
    coordinate, [distance] by the returned metres divided by 1000 and
    [duration] by the returned seconds divided by 60 (and sets [steps] to
    the steps it extracted). *)
Theorem getRoutedPaths_success_frame :
  forall routerOutcome (routes : list GeneratedRoute) (mode : string)
         (w : World) (k : nat) (route : GeneratedRoute) (data : Osrm.Data)
         (osrmRoute : Osrm.Route.t) (others : list Osrm.Route.t),
    nth_error routes k = Some route ->
    routerOutcome (List.length (fetched w) + k)%nat
      (osrmUrl (osrmProfileOf mode) route)
    = Osrm.Json data ->
    Osrm.code data = "Ok"%string ->
    Osrm.routes data = Some (osrmRoute :: others) ->
    exists routed,
      nth_error (fst (getRoutedPaths routerOutcome routes mode w)) k
      = Some routed /\
      id routed = id route /\
      isLoop routed = isLoop route /\
      waypoints routed = waypoints route /\
      points routed
      = map (fun coord => {| lat := snd coord; lon := fst coord |})
          (Osrm.Geometry.coordinates (Osrm.Route.geometry osrmRoute)) /\
      distance routed = Some (Osrm.Route.distance osrmRoute / 1000) /\
      duration routed = Some (Osrm.Route.duration osrmRoute / 60) /\
      steps routed = Some (extractSteps osrmRoute).
Proof.
  intros routerOutcome routes mode w k route data osrmRoute others
         Hk Hcall Hcode Hroutes.
  eexists. split.
  - rewrite getRoutedPaths_nth, Hk. simpl. rewrite Hcall. simpl.
    rewrite Hcode, Hroutes. simpl. reflexivity.
  - simpl. repeat split.
Qed.

Lemma getRoutedPaths_success_frame_witness :
  let routes := [straightRoute 0; straightRoute 1; straightRoute 2] in
  nth_error routes 2 = Some (straightRoute 2) /\
  exists routed,
    nth_error
      (fst (getRoutedPaths failsOnSecondCall routes "walk" emptyWorld)) 2
    = Some routed /\
    id routed = 2%Z /\
    isLoop routed = false /\
    waypoints routed = [] /\
    points routed
    = [ {| lat := 59.33; lon := 18.06 |}; {| lat := 59.34; lon := 18.07 |} ] /\
    distance routed = Some (1500 / 1000) /\
    duration routed = Some (1200 / 60) /\
    steps routed = Some [].
Proof.
  intros routes. split; [ reflexivity | ].
  apply (getRoutedPaths_success_frame failsOnSecondCall routes "walk"
           emptyWorld 2 (straightRoute 2)
           {| Osrm.code := "Ok"; Osrm.routes := Some [roadRoute] |}
           roadRoute []); reflexivity.
Defined.

(** ** The handler *)

(** C8. A request without [start], or whose [start.lat] or [start.lon] is
    missing or 0, is answered with status 400 and an explanatory message,
    and the world is left as it was: no random draw was made and no URL
    was fetched. *)
Theorem postApiRoute_rejects_missing_start :
  forall routerOutcome randomOutcome (req : RouteRequest) (w : World),
    (req_start req = None \/
     exists s,
       req_start req = Some s /\
       (raw_lat s = None \/ raw_lat s = Some 0 \/
        raw_lon s = None \/ raw_lon s = Some 0)) ->
    postApiRoute routerOutcome randomOutcome req w
    = ({| status := 400%Z;
          body := ErrorBody "Start location with lat/lon required" |}, w).
Proof.
  intros routerOutcome randomOutcome req w Hstart.
  assert (Hfalsy0 : falsy (Some 0) = true).
  { unfold falsy. destruct (Req_dec_T 0 0) as [_ | H]; [ reflexivity | ].
    now contradiction H. }
  assert (Hinvalid : validStart (req_start req) = None).
  { destruct Hstart as [-> | (s & -> & Hs)]; [ reflexivity | ].
    unfold validStart.
    destruct Hs as [H | [H | [H | H]]]; rewrite H;
      try rewrite Hfalsy0; simpl; try reflexivity;
      rewrite orb_true_r; reflexivity. }
  unfold postApiRoute. now rewrite Hinvalid.
Qed.

Lemma postApiRoute_rejects_missing_start_witness :
  let req :=
    {| req_start := Some {| raw_lat := Some 0; raw_lon := Some 18.06 |};
       req_end := None;
       req_mode := None;
       req_numRoutes := None;
       req_distanceKm := None |} in
  (req_start req = None \/
   exists s,
     req_start req = Some s /\
     (raw_lat s = None \/ raw_lat s = Some 0 \/
      raw_lon s = None \/ raw_lon s = Some 0)) /\
  postApiRoute failsOnSecondCall (fun _ => 0.5) req emptyWorld
  = ({| status := 400%Z;
        body := ErrorBody "Start location with lat/lon required" |},
     emptyWorld).
Proof.
  intros req.
  assert (H : req_start req = None \/
              exists s,
                req_start req = Some s /\
                (raw_lat s = None \/ raw_lat s = Some 0 \/
                 raw_lon s = None \/ raw_lon s = Some 0)).
  { right. eexists. split; [ reflexivity | ]. right. left. reflexivity. }
  split; [ exact H | ].
  exact (postApiRoute_rejects_missing_start failsOnSecondCall (fun _ => 0.5)
           req emptyWorld H).
Defined.

(** * Further properties *)

(** ** Geo-math helpers *)

Lemma atan2_quadrant (y x : R) :
  0 <= y -> 0 <= x -> 0 <= Math.atan2 y x <= PI / 2.
Proof.
  intros Hy Hx. pose proof PI_bounds as HPI. unfold Math.atan2, Math.PI.
  destruct (Rlt_dec 0 x) as [Hpos | Hnpos].
  - pose proof (atan_bound (y / x)) as Hb.
    assert (Hq : 0 <= y / x).
    { unfold Rdiv. apply Rmult_le_pos; [ exact Hy | ].
      left. now apply Rinv_0_lt_compat. }
    destruct Hq as [Hq | <-].
    + apply atan_increasing in Hq. rewrite atan_0 in Hq. lra.
    + rewrite atan_0. lra.
  - destruct (Rlt_dec x 0) as [Hneg | _]; [ lra | ].
    destruct (Rlt_dec 0 y) as [_ | _]; [ lra | ].
    destruct (Rlt_dec y 0) as [Hyn | _]; lra.
Qed.

Lemma haversine_bounds (coord1 coord2 : Coordinate) :
  0 <= haversine coord1 coord2 <= 1.
Proof.
  unfold haversine, Math.sin, Math.cos, Math.PI.
  set (p1 := lat coord1 * PI / 180).
  set (p2 := lat coord2 * PI / 180).
  set (v := (lon coord2 - lon coord1) * PI / 180 / 2).
  replace ((lat coord2 - lat coord1) * PI / 180 / 2) with ((p2 - p1) / 2)
    by (unfold p1, p2; lra).
  set (u := (p2 - p1) / 2).
  assert (Hprod : cos p1 * cos p2
                  = (1 - 2 * (sin u * sin u) + cos (p2 + p1)) / 2).
  { pose proof (cos_2a_sin u) as H2.
    replace (2 * u) with (p2 - p1) in H2 by (unfold u; lra).
    rewrite cos_minus in H2. rewrite cos_plus. lra. }
  rewrite Hprod.
  pose proof (COS_bound (p2 + p1)) as Hc.
  pose proof (SIN_bound u) as Hu.
  pose proof (SIN_bound v) as Hv.
  assert (HS : 0 <= sin u * sin u <= 1) by (split; nra).
  assert (HV : 0 <= sin v * sin v <= 1) by (split; nra).
  set (S := sin u * sin u) in *.
  set (V := sin v * sin v) in *.
  replace ((1 - 2 * S + cos (p2 + p1)) / 2 * sin v * sin v)
    with ((1 - 2 * S + cos (p2 + p1)) / 2 * V) by (unfold V; ring).
  split; nra.
Qed.

Lemma calculateDistance_bounds (coord1 coord2 : Coordinate) :
  0 <= calculateDistance coord1 coord2 <= 6371 * PI.
Proof.
  change (calculateDistance coord1 coord2)
    with (6371 * (2 * Math.atan2 (Math.sqrt (haversine coord1 coord2))
                         (Math.sqrt (1 - haversine coord1 coord2)))).
  pose proof (atan2_quadrant (Math.sqrt (haversine coord1 coord2))
                (Math.sqrt (1 - haversine coord1 coord2))
                (sqrt_pos _) (sqrt_pos _)) as H.
  lra.
Qed.

Lemma calculateDistance_sym (a b : Coordinate) :
  calculateDistance a b = calculateDistance b a.
Proof.
  assert (Hhav : haversine a b = haversine b a).
  { unfold haversine, Math.sin, Math.cos.
    replace ((lat a - lat b) * Math.PI / 180) with
      (- ((lat b - lat a) * Math.PI / 180)) by lra.
    replace ((lon a - lon b) * Math.PI / 180) with
      (- ((lon b - lon a) * Math.PI / 180)) by lra.
    rewrite (haversine_opp ((lat b - lat a) * Math.PI / 180)).
    rewrite !Rmult_assoc,
      (haversine_opp ((lon b - lon a) * Math.PI / 180)), <- !Rmult_assoc.
    now rewrite (Rmult_comm (cos (lat b * Math.PI / 180))). }
  change (calculateDistance a b)
    with (6371 * (2 * Math.atan2 (Math.sqrt (haversine a b))
                         (Math.sqrt (1 - haversine a b)))).
  now rewrite Hhav.
Qed.

Lemma haversine_example :
  haversine {| lat := 0; lon := 0 |} {| lat := 0; lon := 0.09 |} <= 0.999999.
Proof.
  pose proof PI_bounds as HPI.
  unfold haversine, Math.sin, Math.cos, Math.PI. simpl.
  replace ((0 - 0) * PI / 180 / 2) with 0 by lra.
  replace (0 * PI / 180) with 0 by lra.
  rewrite sin_0, cos_0.
  set (t := (0.09 - 0) * PI / 180 / 2).
  assert (Ht : 0 < t < 0.001) by (unfold t; lra).
  pose proof (sin_lt_x t (proj1 Ht)) as Hlt.
  assert (Hge : 0 <= sin t) by (apply sin_ge_0; lra).
  nra.
Qed.

Lemma clearOfAntipode_example :
  clearOfAntipode {| lat := 0; lon := 0 |} {| lat := 0; lon := 0.09 |}.
Proof.
  unfold clearOfAntipode, validLatitude. simpl.
  repeat split; try lra. apply haversine_example.
Qed.

(** X1. Between two coordinates that are clear of the antipode of each
    other, the distance lies between 0 and half the circumference of the
    Earth, 6371 PI kilometres. *)
Theorem calculateDistance_range :
  forall coord1 coord2 : Coordinate,
    clearOfAntipode coord1 coord2 ->
    0 <= calculateDistance coord1 coord2 <= 6371 * PI.
Proof.
  intros coord1 coord2 _. apply calculateDistance_bounds.
Qed.

Lemma calculateDistance_range_witness :
  clearOfAntipode {| lat := 0; lon := 0 |} {| lat := 0; lon := 0.09 |} /\
  0 <= calculateDistance {| lat := 0; lon := 0 |} {| lat := 0; lon := 0.09 |}
    <= 6371 * PI.
Proof.
  split; [ exact clearOfAntipode_example | ].
  exact (calculateDistance_range {| lat := 0; lon := 0 |}
           {| lat := 0; lon := 0.09 |} clearOfAntipode_example).
Defined.

(** X2. A path of no point and a path of one point have length 0. *)
Theorem calculateRouteDistance_short :
  calculateRouteDistance [] = 0 /\
  (forall p : Coordinate, calculateRouteDistance [p] = 0).
Proof.
  split; reflexivity.
Qed.

(** ** What a pushing loop does to the world *)

Lemma list_sum_constant (c n : nat) (start : nat) :
  list_sum (map (fun _ => c) (seq start n)) = (c * n)%nat.
Proof.
  revert start. induction n as [| n IH]; intros start; simpl; [ lia | ].
  rewrite IH. lia.
Qed.

(** When the body at index [i] makes [cost i] random draws and fetches
    nothing, the loop makes the sum of them and fetches nothing. *)
Lemma for_push_from_world {A : Type} (body : Z -> M A) (cost : Z -> nat) :
  (forall i w,
      snd (body i w)
      = {| randomCalls := randomCalls w + cost i; fetched := fetched w |}) ->
  forall n i array w,
    snd (for_push_from n i body array w)
    = {| randomCalls :=
           randomCalls w
           + list_sum (map (fun k => cost (i + Z.of_nat k)%Z) (seq 0 n));
         fetched := fetched w |}.
Proof.
  intros Hbody. induction n as [| n IH]; intros i array w; simpl.
  - rewrite Nat.add_0_r. now destruct w.
  - unfold bind. specialize (Hbody i w).
    destruct (body i w) as [x w1]. simpl in Hbody. subst w1.
    rewrite IH. simpl. f_equal.
    replace (i + 0)%Z with i by lia.
    rewrite <- seq_shift, map_map.
    rewrite <- Nat.add_assoc. f_equal. f_equal. f_equal.
    apply map_ext. intros k. f_equal. lia.
Qed.

Ltac forall_pushed :=
  match goal with
  | |- Forall ?Q (fst (for_push_from ?n ?i0 ?body ?a ?w)) =>
      let Hbody := fresh "Hbody" in
      assert (Hbody : forall (j : Z) w0, Q (fst (body j w0)));
      [ | let xs := fresh "xs" in
          let Hxs := fresh "Hxs" in
          let Hnth := fresh "Hnth" in
          destruct (for_push_from_spec (fun _ => Q) body Hbody n i0 a w)
            as (xs & Hxs & _ & Hnth);
          rewrite Hxs; simpl; apply Forall_forall;
          let p := fresh "p" in
          let Hp := fresh "Hp" in
          intros p Hp; apply In_nth_error in Hp;
          let k := fresh "k" in
          destruct Hp as [k Hp]; eauto ]
  end.

(** ** Point-to-point synthesizer *)

(** X5. When every draw is in [0, 1), every random waypoint lies in the
    bounding box of start and end widened by 0.005 degrees on each side. *)
Theorem generateRandomWaypoints_in_box :
  forall randomOutcome (start end_ : Coordinate) (count : Z) (w : World),
    (forall n, 0 <= randomOutcome n < 1) ->
    Forall
      (fun p =>
         Rmin (lat start) (lat end_) - 0.005 <= lat p
           <= Rmax (lat start) (lat end_) + 0.005 /\
         Rmin (lon start) (lon end_) - 0.005 <= lon p
           <= Rmax (lon start) (lon end_) + 0.005)
      (fst (generateRandomWaypoints randomOutcome start end_ count w)).
Proof.
  intros randomOutcome start end_ count w Hrange.
  unfold generateRandomWaypoints, for_push.
  forall_pushed.
  intros j w0. unfold bind, Math_random, ret. simpl.
  pose proof (Hrange (randomCalls w0)) as H1.
  pose proof (Hrange (S (randomCalls w0))) as H2.
  pose proof (Hrange (S (S (randomCalls w0)))) as H3.
  pose proof (Hrange (S (S (S (randomCalls w0))))) as H4.
  split.
  - unfold Rmin, Rmax. destruct (Rle_dec (lat start) (lat end_)); split; nra.
  - unfold Rmin, Rmax. destruct (Rle_dec (lon start) (lon end_)); split; nra.
Qed.

Lemma generateRandomWaypoints_in_box_witness :
  (forall n : nat, 0 <= (fun _ : nat => 0.5) n < 1) /\
  Forall
    (fun p =>
       Rmin 0 0 - 0.005 <= lat p <= Rmax 0 0 + 0.005 /\
       Rmin 0 0.09 - 0.005 <= lon p <= Rmax 0 0.09 + 0.005)
    (fst (generateRandomWaypoints (fun _ => 0.5) {| lat := 0; lon := 0 |}
            {| lat := 0; lon := 0.09 |} 2 emptyWorld)).
Proof.
  assert (Hrange : forall n : nat, 0 <= (fun _ : nat => 0.5) n < 1)
    by (intros n; lra).
  split; [ exact Hrange | ].
  exact (generateRandomWaypoints_in_box (fun _ => 0.5) {| lat := 0; lon := 0 |}
           {| lat := 0; lon := 0.09 |} 2%Z emptyWorld Hrange).
Defined.

Lemma generateRandomWaypoints_world randomOutcome start end_ count w :
  snd (generateRandomWaypoints randomOutcome start end_ count w)
  = {| randomCalls := randomCalls w + 4 * Z.to_nat count;
       fetched := fetched w |}.
Proof.
  unfold generateRandomWaypoints, for_push.
  rewrite for_push_from_world with (cost := fun _ => 4%nat).
  - now rewrite list_sum_constant.
  - intros i w0. unfold bind, Math_random, ret. simpl.
    f_equal. lia.
Qed.

(** X6. [generateRandomWaypoints] returns [count] waypoints (none for a
    count of 0 or less), makes four random draws for each and fetches
    nothing. *)
Theorem generateRandomWaypoints_count_and_draws :
  forall randomOutcome (start end_ : Coordinate) (count : Z) (w : World),
    List.length (fst (generateRandomWaypoints randomOutcome start end_ count w))
    = Z.to_nat count /\
    snd (generateRandomWaypoints randomOutcome start end_ count w)
    = {| randomCalls := randomCalls w + 4 * Z.to_nat count;
         fetched := fetched w |}.
Proof.
  intros randomOutcome start end_ count w.
  split; [ apply generateRandomWaypoints_length
         | apply generateRandomWaypoints_world ].
Qed.

(** ** Loop synthesizer *)

Lemma loop_waypoints_annulus :
  forall randomOutcome (start : Coordinate) (targetDistanceKm : number)
         (variationIndex : Z) (w : World),
    (forall n, 0 <= randomOutcome n < 1) ->
    0 <= targetDistanceKm ->
    cos (lat start * PI / 180) <> 0 ->
    let baseRadius := targetDistanceKm / (2 * PI) * 1.5 in
    Forall
      (fun p =>
         exists radius,
           0.8 * baseRadius <= radius <= 1.2 * baseRadius /\
           ((lat p - lat start) * 111)²
           + ((lon p - lon start) * (111 * cos (lat start * PI / 180)))²
           = radius²)
      (fst (generateLoopWaypoints randomOutcome start targetDistanceKm
              variationIndex w)).
Proof.
  intros randomOutcome start D vi w Hrange HD Hcos baseRadius.
  assert (Hbase : 0 <= baseRadius).
  { unfold baseRadius. pose proof PI_bounds as HPI.
    apply Rmult_le_pos; [ | lra ].
    apply Rmult_le_pos; [ exact HD | ].
    left. apply Rinv_0_lt_compat. lra. }
  unfold generateLoopWaypoints, for_push.
  forall_pushed.
  intros j w0. unfold bind, Math_random, ret. simpl.
  pose proof (Hrange (S (randomCalls w0))) as H2.
  fold baseRadius. unfold Math.sin, Math.cos, Math.PI.
  set (angle := _ + (randomOutcome (randomCalls w0) - 0.5) * 0.3).
  set (r2 := randomOutcome (S (randomCalls w0))) in *.
  exists (baseRadius * (0.8 + r2 * 0.4)).
  split; [ split; nra | ].
  transitivity ((baseRadius * (0.8 + r2 * 0.4))²
                * ((sin angle)² + (cos angle)²)).
  - unfold Rsqr, baseRadius. field.
    repeat split; solve [ exact Hcos | apply PI_neq0 ].
  - rewrite sin2_cos2. ring.
Qed.


(** X7. When every draw is in [0, 1), the target distance is not negative
    and the start is not on a pole, every loop waypoint lies, in the local
    kilometre grid around [start] (111 km per degree of latitude,
    [111 cos(lat)] km per degree of longitude), at a distance from [start]
    between 0.8 and 1.2 times the base radius
    [targetDistanceKm / (2 PI) * 1.5]. *)
Theorem generateLoopWaypoints_in_annulus :
  forall randomOutcome (start : Coordinate) (targetDistanceKm : number)
         (variationIndex : Z) (w : World),
    (forall n, 0 <= randomOutcome n < 1) ->
    0 <= targetDistanceKm ->
    cos (lat start * PI / 180) <> 0 ->
    let baseRadius := targetDistanceKm / (2 * PI) * 1.5 in
    Forall
      (fun p =>
         exists radius,
           0.8 * baseRadius <= radius <= 1.2 * baseRadius /\
           ((lat p - lat start) * 111)²
           + ((lon p - lon start) * (111 * cos (lat start * PI / 180)))²
           = radius²)
      (fst (generateLoopWaypoints randomOutcome start targetDistanceKm
              variationIndex w)).
Proof.
  exact loop_waypoints_annulus.
Qed.

Lemma generateLoopWaypoints_in_annulus_witness :
  (forall n : nat, 0 <= (fun _ : nat => 0.5) n < 1) /\
  0 <= 4 /\
  cos (0 * PI / 180) <> 0 /\
  Forall
    (fun p =>
       exists radius,
         0.8 * (4 / (2 * PI) * 1.5) <= radius <= 1.2 * (4 / (2 * PI) * 1.5) /\
         ((lat p - 0) * 111)² + ((lon p - 0) * (111 * cos (0 * PI / 180)))²
         = radius²)
    (fst (generateLoopWaypoints (fun _ => 0.5) {| lat := 0; lon := 0 |} 4 1
            emptyWorld)).
Proof.
  assert (Hrange : forall n : nat, 0 <= (fun _ : nat => 0.5) n < 1)
    by (intros n; lra).
  assert (HD : 0 <= 4) by lra.
  assert (Hcos : cos (0 * PI / 180) <> 0).
  { replace (0 * PI / 180) with 0 by lra. rewrite cos_0. lra. }
  split; [ exact Hrange | split; [ exact HD | split; [ exact Hcos | ] ] ].
  exact (generateLoopWaypoints_in_annulus (fun _ => 0.5)
           {| lat := 0; lon := 0 |} 4 1%Z emptyWorld Hrange HD Hcos).
Defined.

Lemma generateLoopWaypoints_world randomOutcome start targetDistanceKm
  variationIndex w :
  snd (generateLoopWaypoints randomOutcome start targetDistanceKm
         variationIndex w)
  = {| randomCalls :=
         randomCalls w
         + 2 * Z.to_nat (Math.max 3 (Math.min 5 (3 + variationIndex)));
       fetched := fetched w |}.
Proof.
  unfold generateLoopWaypoints, for_push.
  rewrite for_push_from_world with (cost := fun _ => 2%nat).
  - now rewrite list_sum_constant.
  - intros i w0. unfold bind, Math_random, ret. simpl.
    f_equal. lia.
Qed.

(** X8. [generateLoopWaypoints] makes two random draws for each waypoint,
    so between 6 and 10, and fetches nothing. *)
Theorem generateLoopWaypoints_draws :
  forall randomOutcome (start : Coordinate) (targetDistanceKm : number)
         (variationIndex : Z) (w : World),
    let numWaypoints :=
      Z.to_nat (Math.max 3 (Math.min 5 (3 + variationIndex))) in
    snd (generateLoopWaypoints randomOutcome start targetDistanceKm
           variationIndex w)
    = {| randomCalls := randomCalls w + 2 * numWaypoints;
         fetched := fetched w |} /\
    (6 <= 2 * numWaypoints <= 10)%nat.
Proof.
  intros randomOutcome start D vi w numWaypoints.
  split; [ apply generateLoopWaypoints_world
         | unfold numWaypoints, Math.max, Math.min; lia ].
Qed.

(** ** Route assembler *)

Lemma generateRoutes_body_world randomOutcome start end_ distanceKm numRoutes w :
  snd (generateRoutes randomOutcome start end_ numRoutes distanceKm w)
  = {| randomCalls :=
         randomCalls w
         + list_sum
             (map (fun k => drawsOfRoute start end_ distanceKm (Z.of_nat k))
                (seq 0 (Z.to_nat numRoutes)));
       fetched := fetched w |}.
Proof.
  unfold generateRoutes, for_push.
  rewrite for_push_from_world with (cost := drawsOfRoute start end_ distanceKm).
  - reflexivity.
  - intros i w0. unfold bind, drawsOfRoute, waypointsAsked.
    destruct end_ as [e |].
    + pose proof (generateRandomWaypoints_world randomOutcome start e
        (Math.max 1 (Math.floor ((distanceKm - calculateDistance start e) / 2)))
        w0) as Hw.
      destruct (generateRandomWaypoints _ _ _ _ _) as [wps w1].
      simpl in *. exact Hw.
    + pose proof (generateLoopWaypoints_world randomOutcome start distanceKm i
                    w0) as Hw.
      destruct (generateLoopWaypoints _ _ _ _ _) as [wps w1].
      simpl in *. exact Hw.
Qed.

(** When the body makes as many random draws as [cost] says of the value it
    returns and fetches nothing, the loop makes the draws of all the values
    it pushes and fetches nothing. *)
Lemma for_push_from_cost {A : Type} (body : Z -> M A) (cost : A -> nat) :
  (forall i w,
      snd (body i w)
      = {| randomCalls := randomCalls w + cost (fst (body i w));
           fetched := fetched w |}) ->
  forall n i array w,
    (randomCalls (snd (for_push_from n i body array w))
     + list_sum (map cost array)
     = randomCalls w
       + list_sum (map cost (fst (for_push_from n i body array w))))%nat /\
    fetched (snd (for_push_from n i body array w)) = fetched w.
Proof.
  intros Hbody. induction n as [| n IH]; intros i array w; simpl.
  - split; [ lia | reflexivity ].
  - unfold bind. specialize (Hbody i w).
    destruct (body i w) as [x w1]. simpl in Hbody. subst w1.
    destruct (IH (i + 1)%Z (array ++ [x])
                {| randomCalls := randomCalls w + cost x;
                   fetched := fetched w |}) as [Hdraws Hfetched].
    simpl in Hdraws, Hfetched.
    rewrite map_app, list_sum_app in Hdraws. simpl in Hdraws.
    split; [ lia | exact Hfetched ].
Qed.

(** X9. [generateRoutes] fetches nothing, and the random draws it makes are
    those of the waypoints of its routes: two for each waypoint in loop
    mode, four for each waypoint in point-to-point mode. *)
Theorem generateRoutes_draws_no_fetch :
  forall randomOutcome (start : Coordinate) (end_ : option Coordinate)
         (numRoutes : Z) (distanceKm : number) (w : World),
    let routes :=
      fst (generateRoutes randomOutcome start end_ numRoutes distanceKm w) in
    let drawsPerWaypoint :=
      match end_ with None => 2%nat | Some _ => 4%nat end in
    snd (generateRoutes randomOutcome start end_ numRoutes distanceKm w)
    = {| randomCalls :=
           randomCalls w
           + list_sum
               (map (fun route =>
                       drawsPerWaypoint * List.length (waypoints route))%nat
                  routes);
         fetched := fetched w |}.
Proof.
  intros randomOutcome start end_ N D w routes drawsPerWaypoint.
  subst routes. unfold generateRoutes, for_push.
  set (cost := fun route : GeneratedRoute =>
                 (drawsPerWaypoint * List.length (waypoints route))%nat).
  match goal with
  | |- snd (for_push_from ?n ?i0 ?body ?a ?w) = _ =>
      assert (Hbody : forall j w0,
                 snd (body j w0)
                 = {| randomCalls := randomCalls w0 + cost (fst (body j w0));
                      fetched := fetched w0 |});
      [ | destruct (for_push_from_cost body cost Hbody n i0 a w)
            as [Hdraws Hfetched] ]
  end.
  - intros j w0. unfold cost, bind, drawsPerWaypoint.
    destruct end_ as [e |].
    + pose proof (generateRandomWaypoints_world randomOutcome start e
        (Math.max 1 (Math.floor ((D - calculateDistance start e) / 2)))
        w0) as Hw.
      pose proof (generateRandomWaypoints_length randomOutcome start e
        (Math.max 1 (Math.floor ((D - calculateDistance start e) / 2)))
        w0) as Hlen.
      destruct (generateRandomWaypoints _ _ _ _ _) as [wps w1].
      simpl in *. rewrite Hw, Hlen. reflexivity.
    + pose proof (generateLoopWaypoints_world randomOutcome start D j w0)
        as Hw.
      pose proof (generateLoopWaypoints_length randomOutcome start D j w0)
        as Hlen.
      destruct (generateLoopWaypoints _ _ _ _ _) as [wps w1].
      simpl in *. rewrite Hw, Hlen. reflexivity.
  - simpl in Hdraws.
    destruct (snd (for_push_from _ _ _ _ _)) as [draws urls].
    simpl in *. f_equal; [ lia | exact Hfetched ].
Qed.

Lemma generateRoutes_distance_present randomOutcome start end_ numRoutes
  distanceKm w :
  Forall (fun route => distance route <> None)
    (fst (generateRoutes randomOutcome start end_ numRoutes distanceKm w)).
Proof.
  unfold generateRoutes, for_push.
  forall_pushed.
  intros j w0. unfold bind.
  destruct end_ as [e |].
  - destruct (generateRandomWaypoints _ _ _ _ _) as [wps w1]. discriminate.
  - destruct (generateLoopWaypoints _ _ _ _ _) as [wps w1]. discriminate.
Qed.

Lemma generateRoutes_isLoop_field randomOutcome start end_ numRoutes
  distanceKm w :
  Forall (fun route =>
            isLoop route = match end_ with None => true | Some _ => false end)
    (fst (generateRoutes randomOutcome start end_ numRoutes distanceKm w)).
Proof.
  unfold generateRoutes, for_push.
  forall_pushed.
  intros j w0. unfold bind.
  destruct end_ as [e |].
  - destruct (generateRandomWaypoints _ _ _ _ _) as [wps w1]. reflexivity.
  - destruct (generateLoopWaypoints _ _ _ _ _) as [wps w1]. reflexivity.
Qed.

(** X10. Every route that [generateRoutes] makes has two more points than
    waypoints, [start] before them and the closing point after them, which
    makes five to seven points for a loop; it carries a [distance], and
    neither [duration] nor [steps]. *)
Theorem generateRoutes_route_invariants :
  forall randomOutcome (start : Coordinate) (end_ : option Coordinate)
         (numRoutes : Z) (distanceKm : number) (w : World),
    Forall
      (fun route =>
         points route = start :: waypoints route ++ [lastPoint start end_] /\
         List.length (points route) = (List.length (waypoints route) + 2)%nat /\
         (if isLoop route
          then 5 <= List.length (points route) <= 7
          else 2 <= List.length (points route))%nat /\
         distance route <> None /\
         duration route = None /\
         steps route = None)
      (fst (generateRoutes randomOutcome start end_ numRoutes distanceKm w)).
Proof.
  intros randomOutcome start end_ N D w.
  pose proof (generateRoutes_distance_present randomOutcome start end_ N D w)
    as Hdist.
  pose proof (generateRoutes_no_duration_no_steps randomOutcome start end_ N D w)
    as Hnone.
  pose proof (generateRoutes_isLoop_field randomOutcome start end_ N D w)
    as Hloop.
  rewrite Forall_forall in *. intros route Hin.
  specialize (Hdist route Hin). specialize (Hnone route Hin).
  specialize (Hloop route Hin).
  apply In_nth_error in Hin. destruct Hin as [k Hk].
  apply generateRoutes_route_shape in Hk. destruct Hk as [Hpoints Hlen].
  assert (Hsize : List.length (points route)
                  = (List.length (waypoints route) + 2)%nat).
  { rewrite Hpoints. simpl. rewrite length_app. simpl. lia. }
  split; [ exact Hpoints | split; [ exact Hsize | ] ].
  split; [ | split; [ exact Hdist | exact Hnone ] ].
  rewrite Hloop, Hsize, Hlen. unfold waypointsAsked, Math.max, Math.min.
  destruct end_; lia.
Qed.

Lemma waypointCount_between (x : R) (n : Z) :
  IZR n <= x < IZR n + 1 -> Math.max 1 (Math.floor x) = Z.max 1 n.
Proof.
  intros Hx. unfold Math.max, Math.floor.
  rewrite <- (Int_part_spec x n); [ reflexivity | lra ].
Qed.

Lemma waypointCount_short (x : R) :
  x < 4 -> Math.max 1 (Math.floor (x / 2)) = 1%Z.
Proof.
  intros Hx. unfold Math.max, Math.floor.
  destruct (base_Int_part (x / 2)) as [Hle _].
  assert (Hlt : IZR (Int_part (x / 2)) < IZR 2) by lra.
  apply lt_IZR in Hlt. lia.
Qed.

(** X11. Between a start and an end that are clear of the antipode of each
    other, when the target distance is at most 3.999 km above the direct
    distance, and also when it is below the direct distance, every
    point-to-point route has exactly one waypoint: start, waypoint, end. *)
Theorem generateRoutes_single_waypoint_when_short :
  forall randomOutcome (start end_ : Coordinate) (numRoutes : Z)
         (distanceKm : number) (w : World),
    clearOfAntipode start end_ ->
    distanceKm - calculateDistance start end_ <= 3.999 ->
    Forall
      (fun route =>
         exists waypoint,
           waypoints route = [waypoint] /\
           points route = [start; waypoint; end_])
      (fst (generateRoutes randomOutcome start (Some end_) numRoutes
              distanceKm w)).
Proof.
  intros randomOutcome start end_ N D w _ Hshort.
  apply Forall_forall. intros route Hin.
  apply In_nth_error in Hin. destruct Hin as [k Hk].
  apply generateRoutes_route_shape in Hk. destruct Hk as [Hpoints Hlen].
  unfold waypointsAsked in Hlen.
  rewrite waypointCount_short in Hlen by lra.
  destruct (waypoints route) as [| waypoint [| other rest]] eqn:E;
    try discriminate.
  exists waypoint. split; [ reflexivity | exact Hpoints ].
Qed.

Lemma generateRoutes_single_waypoint_when_short_witness :
  clearOfAntipode {| lat := 0; lon := 0 |} {| lat := 0; lon := 0.09 |} /\
  5 - calculateDistance {| lat := 0; lon := 0 |} {| lat := 0; lon := 0.09 |}
    <= 3.999 /\
  Forall
    (fun route =>
       exists waypoint,
         waypoints route = [waypoint] /\
         points route
         = [ {| lat := 0; lon := 0 |}; waypoint; {| lat := 0; lon := 0.09 |} ])
    (fst (generateRoutes (fun _ => 0.5) {| lat := 0; lon := 0 |}
            (Some {| lat := 0; lon := 0.09 |}) 3 5 emptyWorld)).
Proof.
  assert (Hshort : 5 - calculateDistance {| lat := 0; lon := 0 |}
                         {| lat := 0; lon := 0.09 |} <= 3.999).
  { rewrite calculateDistance_example. pose proof PI_bounds. lra. }
  split; [ exact clearOfAntipode_example | split; [ exact Hshort | ] ].
  exact (generateRoutes_single_waypoint_when_short (fun _ => 0.5)
           {| lat := 0; lon := 0 |} {| lat := 0; lon := 0.09 |} 3%Z 5
           emptyWorld clearOfAntipode_example Hshort).
Defined.

(** ** Road-routing adapter *)

Lemma getRoutedPaths_world routerOutcome routes mode w :
  snd (getRoutedPaths routerOutcome routes mode w)
  = {| randomCalls := randomCalls w;
       fetched := fetched w ++ map (osrmUrl (osrmProfileOf mode)) routes |}.
Proof.
  unfold getRoutedPaths. now rewrite getRoutedPaths_loop_spec.
Qed.

(** X12. [getRoutedPaths] makes no random draw and fetches exactly one URL
    for each route, in the order of the routes: the points of the route as
    [lon, lat] pairs, under the profile "driving" for the mode "car",
    "cycling" for "bike" and "foot" for every other mode. *)
Theorem getRoutedPaths_one_fetch_per_route :
  forall routerOutcome (routes : list GeneratedRoute) (mode : string)
         (w : World),
    let osrmProfile :=
      if (mode =? "car")%string then "driving"%string
      else if (mode =? "bike")%string then "cycling"%string
      else "foot"%string in
    snd (getRoutedPaths routerOutcome routes mode w)
    = {| randomCalls := randomCalls w;
         fetched :=
           fetched w
           ++ map (fun route =>
                     {| Osrm.profile := osrmProfile;
                        Osrm.coords :=
                          map (fun p => (lon p, lat p)) (points route) |})
                routes |}.
Proof.
  intros. apply getRoutedPaths_world.
Qed.

Lemma getRoutedPaths_ext routerOutcome routes mode w expected :
  List.length expected = List.length routes ->
  (forall k route,
      nth_error routes k = Some route ->
      routedOrFallback route
        (routerOutcome (List.length (fetched w) + k)%nat
           (osrmUrl (osrmProfileOf mode) route))
      = nth k expected route) ->
  fst (getRoutedPaths routerOutcome routes mode w) = expected.
Proof.
  intros Hlen Hsame.
  apply nth_error_ext. intros k.
  rewrite getRoutedPaths_nth.
  destruct (nth_error routes k) as [route |] eqn:E; simpl.
  - rewrite (Hsame k route E).
    symmetry. apply nth_error_nth'.
    rewrite Hlen. apply nth_error_Some. congruence.
  - symmetry. apply nth_error_None. rewrite Hlen.
    now apply nth_error_None.
Qed.

(** X13. When the call of every route fails, [getRoutedPaths] returns the
    routes it was given, unchanged. *)
Theorem getRoutedPaths_all_failed :
  forall routerOutcome (routes : list GeneratedRoute) (mode : string)
         (w : World),
    (forall k route,
        nth_error routes k = Some route ->
        callFailed
          (routerOutcome (List.length (fetched w) + k)%nat
             (osrmUrl (osrmProfileOf mode) route))) ->
    fst (getRoutedPaths routerOutcome routes mode w) = routes.
Proof.
  intros routerOutcome routes mode w Hfail.
  apply getRoutedPaths_ext; [ reflexivity | ].
  intros k route Hk.
  rewrite routedOrFallback_failed by (apply Hfail; exact Hk).
  symmetry. now apply nth_error_nth.
Qed.

Lemma getRoutedPaths_all_failed_witness :
  (forall k route,
      nth_error [straightRoute 0; straightRoute 1] k = Some route ->
      callFailed
        (routerDown (List.length (fetched emptyWorld) + k)%nat
           (osrmUrl (osrmProfileOf "bike") route))) /\
  fst (getRoutedPaths routerDown [straightRoute 0; straightRoute 1] "bike"
         emptyWorld)
  = [straightRoute 0; straightRoute 1].
Proof.
  assert (Hfail : forall k route,
             nth_error [straightRoute 0; straightRoute 1] k = Some route ->
             callFailed
               (routerDown (List.length (fetched emptyWorld) + k)%nat
                  (osrmUrl (osrmProfileOf "bike") route)))
    by (intros k route _; exact I).
  split; [ exact Hfail | ].
  exact (getRoutedPaths_all_failed routerDown
           [straightRoute 0; straightRoute 1] "bike" emptyWorld Hfail).
Defined.

Lemma lonlat_round_trip (path : list Coordinate) :
  map (fun coord => {| lon := fst coord; lat := snd coord |})
    (map (fun p => (lon p, lat p)) path)
  = path.
Proof.
  rewrite map_map. rewrite <- (map_id path) at 2.
  apply map_ext. now intros [la lo].
Qed.

(** X14. The [lon, lat] pairs of the request, read back as a geometry, are
    the points of the route: when the router answers every request with
    "Ok" and the requested coordinates, every route keeps its points. *)
Theorem getRoutedPaths_echo_keeps_points :
  forall routerOutcome (routes : list GeneratedRoute) (mode : string)
         (w : World),
    (forall n url,
        exists data osrmRoute others,
          routerOutcome n url = Osrm.Json data /\
          Osrm.code data = "Ok"%string /\
          Osrm.routes data = Some (osrmRoute :: others) /\
          Osrm.Geometry.coordinates (Osrm.Route.geometry osrmRoute)
          = Osrm.coords url) ->
    map points (fst (getRoutedPaths routerOutcome routes mode w))
    = map points routes.
Proof.
  intros routerOutcome routes mode w Hecho.
  apply nth_error_ext. intros k.
  rewrite !nth_error_map, getRoutedPaths_nth.
  destruct (nth_error routes k) as [route |]; simpl; [ | reflexivity ].
  destruct (Hecho (List.length (fetched w) + k)%nat
              (osrmUrl (osrmProfileOf mode) route))
    as (data & osrmRoute & others & -> & Hcode & Hroutes & Hgeo).
  simpl. rewrite Hcode, Hroutes. simpl. rewrite Hgeo.
  unfold osrmUrl. simpl. now rewrite lonlat_round_trip.
Qed.

Lemma getRoutedPaths_echo_keeps_points_witness :
  (forall n url,
      exists data osrmRoute others,
        echoRouter n url = Osrm.Json data /\
        Osrm.code data = "Ok"%string /\
        Osrm.routes data = Some (osrmRoute :: others) /\
        Osrm.Geometry.coordinates (Osrm.Route.geometry osrmRoute)
        = Osrm.coords url) /\
  map points
    (fst (getRoutedPaths echoRouter [straightRoute 0; straightRoute 1] "car"
            emptyWorld))
  = map points [straightRoute 0; straightRoute 1].
Proof.
  assert (Hecho : forall n url,
             exists data osrmRoute others,
               echoRouter n url = Osrm.Json data /\
               Osrm.code data = "Ok"%string /\
               Osrm.routes data = Some (osrmRoute :: others) /\
               Osrm.Geometry.coordinates (Osrm.Route.geometry osrmRoute)
               = Osrm.coords url).
  { intros n url. unfold echoRouter. do 3 eexists.
    split; [ reflexivity | ]. simpl. repeat split. }
  split; [ exact Hecho | ].
  exact (getRoutedPaths_echo_keeps_points echoRouter
           [straightRoute 0; straightRoute 1] "car" emptyWorld Hecho).
Defined.

Lemma or_string_nonempty (a : option string) (b : string) :
  b <> EmptyString -> or_string a b <> EmptyString.
Proof.
  intros Hb. unfold or_string.
  destruct a as [[| c s] |]; auto. discriminate.
Qed.

Lemma stepOf_instruction_nonempty (step : Osrm.Step.t) :
  RouteStep.instruction (stepOf step) <> EmptyString.
Proof.
  unfold stepOf. simpl. apply or_string_nonempty. discriminate.
Qed.

(** X15. The steps extracted from a routed response are the steps of its
    legs, one for one (none when the legs are absent), and none of them has
    an empty instruction: a step without a maneuver instruction reads
    "Continue on" followed by the name of the road or by "road". *)
Theorem extractSteps_count_and_instructions :
  forall osrmRoute : Osrm.Route.t,
    List.length (extractSteps osrmRoute)
    = list_sum
        (map (fun leg =>
                match Osrm.Leg.steps leg with
                | Some steps => List.length steps
                | None => 0%nat
                end)
           (match Osrm.Route.legs osrmRoute with
            | Some legs => legs
            | None => []
            end)) /\
    Forall (fun step => RouteStep.instruction step <> EmptyString)
      (extractSteps osrmRoute) /\
    (forall step : Osrm.Step.t,
        Osrm.Step.maneuver step = None ->
        RouteStep.instruction (stepOf step)
        = ("Continue on " ++ match Osrm.Step.name step with
                             | Some (String c s) => String c s
                             | _ => "road"
                             end)%string).
Proof.
  intros osrmRoute. unfold extractSteps.
  split; [ | split ].
  - destruct (Osrm.Route.legs osrmRoute) as [legs |]; [ | reflexivity ].
    induction legs as [| leg legs IH]; simpl; [ reflexivity | ].
    rewrite length_app, IH.
    destruct (Osrm.Leg.steps leg); simpl; [ now rewrite length_map | reflexivity ].
  - destruct (Osrm.Route.legs osrmRoute) as [legs |]; [ | constructor ].
    apply Forall_flat_map. apply Forall_forall. intros leg _.
    destruct (Osrm.Leg.steps leg) as [steps |]; [ | constructor ].
    apply Forall_map. apply Forall_forall. intros step _.
    apply stepOf_instruction_nonempty.
  - intros step Hm. unfold stepOf. simpl. rewrite Hm. simpl.
    destruct (Osrm.Step.name step) as [[| c s] |]; reflexivity.
Qed.

Lemma extractSteps_count_and_instructions_witness :
  let step :=
    {| Osrm.Step.maneuver := None;
       Osrm.Step.name := Some "Storgatan"%string;
       Osrm.Step.distance := 120;
       Osrm.Step.duration := 90 |} in
  Osrm.Step.maneuver step = None /\
  RouteStep.instruction (stepOf step) = "Continue on Storgatan"%string.
Proof.
  intros step. split; [ reflexivity | ].
  exact (proj2 (proj2 (extractSteps_count_and_instructions roadRoute))
           step eq_refl).
Defined.

(** ** The handler *)

Lemma routedOrFallback_isLoop route response :
  isLoop (routedOrFallback route response) = isLoop route.
Proof.
  destruct response as [| data]; simpl; auto.
  destruct (Osrm.code data =? "Ok")%string; auto.
  destruct (Osrm.routes data) as [[| osrmRoute rest] |]; auto.
Qed.

Lemma getRoutedPaths_ids_isLoop routerOutcome routes mode w :
  map id (fst (getRoutedPaths routerOutcome routes mode w)) = map id routes /\
  map isLoop (fst (getRoutedPaths routerOutcome routes mode w))
  = map isLoop routes.
Proof.
  split; apply nth_error_ext; intros k;
    rewrite !nth_error_map, getRoutedPaths_nth;
    destruct (nth_error routes k) as [route |]; simpl; auto.
  - now rewrite routedOrFallback_id.
  - now rewrite routedOrFallback_isLoop.
Qed.

Lemma validStart_nonzero (la lo : R) :
  la <> 0 -> lo <> 0 ->
  validStart (Some {| raw_lat := Some la; raw_lon := Some lo |})
  = Some {| lat := la; lon := lo |}.
Proof.
  intros Hla Hlo. unfold validStart, falsy. simpl.
  destruct (Req_dec_T la 0) as [E | _]; [ contradiction | ].
  destruct (Req_dec_T lo 0) as [E | _]; [ contradiction | ].
  reflexivity.
Qed.

(** X16. A request whose start has a latitude and a longitude other than
    0 is answered with status 200, whatever the router does: the body
    carries the mode of the request ("walk" by default) and as many routes
    as asked for (3 by default), with the ids 0, 1, ... in order and
    [isLoop] true exactly when the request has no end; one URL was fetched
    for each route. *)
Theorem postApiRoute_accepts_valid_start :
  forall routerOutcome randomOutcome (req : RouteRequest) (w : World)
         (la lo : number),
    req_start req = Some {| raw_lat := Some la; raw_lon := Some lo |} ->
    la <> 0 ->
    lo <> 0 ->
    let numRoutes := Z.to_nat (default (req_numRoutes req) 3%Z) in
    exists routes,
      fst (postApiRoute routerOutcome randomOutcome req w)
      = {| status := 200%Z;
           body := RouteResponse routes (default (req_mode req) "walk"%string)
        |} /\
      List.length routes = numRoutes /\
      map id routes = map Z.of_nat (seq 0 numRoutes) /\
      Forall (fun route =>
                isLoop route
                = match req_end req with None => true | Some _ => false end)
        routes /\
      List.length (fetched (snd (postApiRoute routerOutcome randomOutcome req w)))
      = (List.length (fetched w) + numRoutes)%nat.
Proof.
  intros routerOutcome randomOutcome req w la lo Hstart Hla Hlo numRoutes.
  unfold postApiRoute. rewrite Hstart, (validStart_nonzero la lo Hla Hlo).
  unfold bind.
  set (start := {| lat := la; lon := lo |}).
  set (N := default (req_numRoutes req) 3%Z) in *.
  set (D := default (req_distanceKm req) 5).
  pose proof (generateRoutes_length randomOutcome start (req_end req) N D w)
    as Hlen.
  pose proof (generateRoutes_id_body randomOutcome start (req_end req) D N w)
    as Hids.
  pose proof (generateRoutes_isLoop_field randomOutcome start (req_end req)
                N D w) as Hloop.
  pose proof (generateRoutes_body_world randomOutcome start (req_end req) D N w)
    as Hworld.
  destruct (generateRoutes randomOutcome start (req_end req) N D w)
    as [routes w1].
  simpl in Hlen, Hids, Hloop, Hworld.
  pose proof (getRoutedPaths_ids_isLoop routerOutcome routes
                (default (req_mode req) "walk"%string) w1) as [Hrid Hrloop].
  pose proof (getRoutedPaths_world routerOutcome routes
                (default (req_mode req) "walk"%string) w1) as Hrworld.
  destruct (getRoutedPaths routerOutcome routes
              (default (req_mode req) "walk"%string) w1) as [routed w2].
  simpl in *.
  exists routed. split; [ reflexivity | ].
  assert (Hrlen : List.length routed = List.length routes).
  { rewrite <- (length_map id routed), Hrid. apply length_map. }
  split; [ unfold numRoutes; congruence | ].
  split; [ unfold numRoutes; congruence | ].
  split.
  - apply Forall_forall. intros r Hr.
    apply (in_map isLoop) in Hr. rewrite Hrloop in Hr.
    apply in_map_iff in Hr. destruct Hr as (r0 & <- & Hr0).
    rewrite Forall_forall in Hloop. now apply Hloop.
  - rewrite Hrworld, Hworld. simpl.
    rewrite length_app, length_map. unfold numRoutes. lia.
Qed.

Lemma postApiRoute_accepts_valid_start_witness :
  let req :=
    {| req_start := Some {| raw_lat := Some 59.33; raw_lon := Some 18.06 |};
       req_end := None;
       req_mode := None;
       req_numRoutes := None;
       req_distanceKm := None |} in
  59.33 <> 0 /\ 18.06 <> 0 /\
  exists routes,
    fst (postApiRoute routerDown (fun _ => 0.5) req emptyWorld)
    = {| status := 200%Z; body := RouteResponse routes "walk" |} /\
    List.length routes = 3%nat /\
    map id routes = [0%Z; 1%Z; 2%Z] /\
    Forall (fun route => isLoop route = true) routes /\
    List.length
      (fetched (snd (postApiRoute routerDown (fun _ => 0.5) req emptyWorld)))
    = 3%nat.
Proof.
  intros req.
  assert (Hla : 59.33 <> 0) by lra.
  assert (Hlo : 18.06 <> 0) by lra.
  split; [ exact Hla | split; [ exact Hlo | ] ].
  exact (postApiRoute_accepts_valid_start routerDown (fun _ => 0.5) req
           emptyWorld 59.33 18.06 eq_refl Hla Hlo).
Defined.

(** X17. When the router is down for every call, a request with a valid
    start is still answered with status 200: the body carries the
    straight-line routes of [generateRoutes], as they were made. *)
Theorem postApiRoute_router_down :
  forall routerOutcome randomOutcome (req : RouteRequest) (w : World)
         (la lo : number),
    req_start req = Some {| raw_lat := Some la; raw_lon := Some lo |} ->
    la <> 0 ->
    lo <> 0 ->
    (forall n url, callFailed (routerOutcome n url)) ->
    fst (postApiRoute routerOutcome randomOutcome req w)
    = {| status := 200%Z;
         body :=
           RouteResponse
             (fst (generateRoutes randomOutcome {| lat := la; lon := lo |}
                     (req_end req) (default (req_numRoutes req) 3%Z)
                     (default (req_distanceKm req) 5) w))
             (default (req_mode req) "walk"%string) |}.
Proof.
  intros routerOutcome randomOutcome req w la lo Hstart Hla Hlo Hdown.
  unfold postApiRoute. rewrite Hstart, (validStart_nonzero la lo Hla Hlo).
  unfold bind.
  destruct (generateRoutes _ _ _ _ _ _) as [routes w1]. simpl.
  pose proof (getRoutedPaths_ext routerOutcome routes
                (default (req_mode req) "walk"%string) w1 routes eq_refl)
    as Hsame.
  destruct (getRoutedPaths _ _ _ _) as [routed w2]. simpl in *.
  rewrite Hsame; [ reflexivity | ].
  intros k route Hk. rewrite routedOrFallback_failed by apply Hdown.
  symmetry. now apply nth_error_nth.
Qed.

Lemma postApiRoute_router_down_witness :
  let req :=
    {| req_start := Some {| raw_lat := Some 59.33; raw_lon := Some 18.06 |};
       req_end := None;
       req_mode := Some "bike"%string;
       req_numRoutes := Some 2%Z;
       req_distanceKm := Some 4 |} in
  59.33 <> 0 /\ 18.06 <> 0 /\
  (forall n url, callFailed (routerDown n url)) /\
  fst (postApiRoute routerDown (fun _ => 0.5) req emptyWorld)
  = {| status := 200%Z;
       body :=
         RouteResponse
           (fst (generateRoutes (fun _ => 0.5)
                   {| lat := 59.33; lon := 18.06 |} None 2 4 emptyWorld))
           "bike" |}.
Proof.
  intros req.
  assert (Hla : 59.33 <> 0) by lra.
  assert (Hlo : 18.06 <> 0) by lra.
  assert (Hdown : forall n url, callFailed (routerDown n url))
    by (intros n url; exact I).
  split; [ exact Hla | split; [ exact Hlo | split; [ exact Hdown | ] ] ].
  exact (postApiRoute_router_down routerDown (fun _ => 0.5) req emptyWorld
           59.33 18.06 eq_refl Hla Hlo Hdown).
Defined.

(** ** Distances along a meridian *)

(** X18. Between two coordinates of the same longitude, less than 180
    degrees of latitude apart, [calculateDistance] is the length of the arc
    of the meridian: 6371 PI / 180 kilometres for each degree. *)
Theorem calculateDistance_along_meridian :
  forall a b : Coordinate,
    lon a = lon b ->
    Rabs (lat b - lat a) < 180 ->
    calculateDistance a b = 6371 * (Rabs (lat b - lat a) * PI / 180).
Proof.
  intros a b Hlon Hlat. pose proof PI_bounds as HPI.
  unfold calculateDistance, Math.sin, Math.cos, Math.PI.
  rewrite Hlon.
  replace ((lon b - lon b) * PI / 180 / 2) with 0 by lra.
  rewrite sin_0, !Rmult_0_r, Rplus_0_r.
  set (u := (lat b - lat a) * PI / 180 / 2).
  set (t := Rabs (lat b - lat a) * PI / 180 / 2).
  assert (Hsq : sin u * sin u = sin t * sin t).
  { unfold u, t, Rabs. destruct (Rcase_abs (lat b - lat a)) as [Hneg | Hpos].
    - rewrite <- (haversine_opp ((lat b - lat a) * PI / 180)).
      f_equal; f_equal; lra.
    - reflexivity. }
  rewrite Hsq.
  rewrite atan2_sqrt_haversine.
  - unfold t. lra.
  - unfold t. pose proof (Rabs_pos (lat b - lat a)) as Hpos.
    split; nra.
Qed.

Lemma calculateDistance_along_meridian_witness :
  18.06 = 18.06 /\
  Rabs (60.33 - 59.33) < 180 /\
  calculateDistance {| lat := 59.33; lon := 18.06 |}
    {| lat := 60.33; lon := 18.06 |}
  = 6371 * (Rabs (60.33 - 59.33) * PI / 180).
Proof.
  assert (Hlat : Rabs (60.33 - 59.33) < 180).
  { rewrite Rabs_pos_eq; lra. }
  split; [ reflexivity | split; [ exact Hlat | ] ].
  exact (calculateDistance_along_meridian {| lat := 59.33; lon := 18.06 |}
           {| lat := 60.33; lon := 18.06 |} eq_refl Hlat).
Defined.

(** ** Directions of the loop waypoints *)

Lemma loop_waypoint_at randomOutcome start targetDistanceKm variationIndex w i :
  (forall n, 0 <= randomOutcome n < 1) ->
  (0 <= i < Math.max 3 (Math.min 5 (3 + variationIndex)))%Z ->
  exists delta f : R,
    - 0.15 <= delta <= 0.15 /\
    0.8 <= f <= 1.2 /\
    nth_error
      (fst (generateLoopWaypoints randomOutcome start targetDistanceKm
              variationIndex w))
      (Z.to_nat i)
    = Some
        (loopWaypoint start
           (IZR i / IZR (Math.max 3 (Math.min 5 (3 + variationIndex)))
            * (2 * PI)
            + IZR variationIndex * (2 * PI / 3) + delta)
           (targetDistanceKm / (2 * PI) * 1.5 * f)).
Proof.
  intros Hrange Hi.
  set (numWaypoints := Math.max 3 (Math.min 5 (3 + variationIndex))) in *.
  set (P := fun (j : Z) (p : Coordinate) =>
    exists delta f : R,
      - 0.15 <= delta <= 0.15 /\ 0.8 <= f <= 1.2 /\
      p = loopWaypoint start
            (IZR j / IZR numWaypoints * (2 * PI)
             + IZR variationIndex * (2 * PI / 3) + delta)
            (targetDistanceKm / (2 * PI) * 1.5 * f)).
  pose proof (generateLoopWaypoints_length randomOutcome start targetDistanceKm
                variationIndex w) as Hlen.
  fold numWaypoints in Hlen.
  revert Hlen. unfold generateLoopWaypoints, for_push. fold numWaypoints.
  match goal with
  | |- context [for_push_from ?n ?i0 ?body ?a ?w] =>
      assert (Hbody : forall j w0, P j (fst (body j w0)));
      [ | destruct (for_push_from_spec P body Hbody n i0 a w)
            as (xs & Hxs & _ & Hnth) ]
  end.
  - intros j w0. unfold bind, Math_random, ret. simpl.
    pose proof (Hrange (randomCalls w0)) as H1.
    pose proof (Hrange (S (randomCalls w0))) as H2.
    exists ((randomOutcome (randomCalls w0) - 0.5) * 0.3),
           (0.8 + randomOutcome (S (randomCalls w0)) * 0.4).
    split; [ lra | split; [ lra | ] ].
    unfold loopWaypoint, Math.sin, Math.cos, Math.PI.
    f_equal;
      match goal with
      | |- _ + ?g ?a * _ * _ = _ + ?g ?b * _ * _ =>
          replace a with b by (unfold Rdiv; ring)
      end; reflexivity.
  - rewrite Hxs. simpl. intros Hlen.
    destruct (nth_error xs (Z.to_nat i)) as [p |] eqn:E.
    + apply Hnth in E. replace (0 + Z.of_nat (Z.to_nat i))%Z with i in E by lia.
      destruct E as (delta & f & Hd & Hf & ->).
      exists delta, f. repeat split; try tauto.
    + apply nth_error_None in E. lia.
Qed.

(** X19. When every draw is in [0, 1) and the start is not on a pole, two
    consecutive loop waypoints are seen from [start] in directions that
    differ by the even share of the circle, [2 PI / numWaypoints], give or
    take 0.3 radians, each at 0.8 to 1.2 times the base radius. *)
Theorem generateLoopWaypoints_consecutive_directions :
  forall randomOutcome (start : Coordinate) (targetDistanceKm : number)
         (variationIndex : Z) (w : World) (i : Z),
    (forall n, 0 <= randomOutcome n < 1) ->
    cos (lat start * PI / 180) <> 0 ->
    (0 <= i)%Z ->
    (i + 1 < Math.max 3 (Math.min 5 (3 + variationIndex)))%Z ->
    let numWaypoints := Math.max 3 (Math.min 5 (3 + variationIndex)) in
    let baseRadius := targetDistanceKm / (2 * PI) * 1.5 in
    let waypoints :=
      fst (generateLoopWaypoints randomOutcome start targetDistanceKm
             variationIndex w) in
    exists angle f angle' f' : R,
      nth_error waypoints (Z.to_nat i)
      = Some (loopWaypoint start angle (baseRadius * f)) /\
      nth_error waypoints (Z.to_nat (i + 1))
      = Some (loopWaypoint start angle' (baseRadius * f')) /\
      0.8 <= f <= 1.2 /\
      0.8 <= f' <= 1.2 /\
      2 * PI / IZR numWaypoints - 0.3 <= angle' - angle
        <= 2 * PI / IZR numWaypoints + 0.3 /\
      0 < 2 * PI / IZR numWaypoints - 0.3.
Proof.
  intros randomOutcome start D vi w i Hrange _ Hi Hnext numWaypoints baseRadius
         wps.
  destruct (loop_waypoint_at randomOutcome start D vi w i Hrange)
    as (d1 & f1 & Hd1 & Hf1 & Hwp1); [ lia | ].
  destruct (loop_waypoint_at randomOutcome start D vi w (i + 1) Hrange)
    as (d2 & f2 & Hd2 & Hf2 & Hwp2); [ lia | ].
  fold numWaypoints baseRadius in Hwp1, Hwp2.
  do 4 eexists.
  split; [ exact Hwp1 | split; [ exact Hwp2 | ] ].
  split; [ exact Hf1 | split; [ exact Hf2 | ] ].
  assert (Hn : 3 <= IZR numWaypoints <= 5).
  { split; apply IZR_le; unfold numWaypoints, Math.max, Math.min; lia. }
  pose proof PI_bounds as HPI.
  assert (Hshare : IZR (i + 1) / IZR numWaypoints * (2 * PI)
                   - IZR i / IZR numWaypoints * (2 * PI)
                   = 2 * PI / IZR numWaypoints).
  { rewrite plus_IZR. field. lra. }
  assert (Hlow : 1.2 <= 2 * PI / IZR numWaypoints).
  { apply Rmult_le_reg_r with (IZR numWaypoints); [ lra | ].
    unfold Rdiv. rewrite Rmult_assoc, Rinv_l by lra. nra. }
  split; [ split | ]; lra.
Qed.

Lemma generateLoopWaypoints_consecutive_directions_witness :
  (forall n : nat, 0 <= (fun _ : nat => 0.5) n < 1) /\
  cos (59.33 * PI / 180) <> 0 /\
  (0 <= 0)%Z /\
  (0 + 1 < Math.max 3 (Math.min 5 (3 + 0)))%Z /\
  exists angle f angle' f' : R,
    nth_error
      (fst (generateLoopWaypoints (fun _ => 0.5)
              {| lat := 59.33; lon := 18.06 |} 4 0 emptyWorld)) 0
    = Some (loopWaypoint {| lat := 59.33; lon := 18.06 |} angle
              (4 / (2 * PI) * 1.5 * f)) /\
    nth_error
      (fst (generateLoopWaypoints (fun _ => 0.5)
              {| lat := 59.33; lon := 18.06 |} 4 0 emptyWorld)) 1
    = Some (loopWaypoint {| lat := 59.33; lon := 18.06 |} angle'
              (4 / (2 * PI) * 1.5 * f')) /\
    0.8 <= f <= 1.2 /\
    0.8 <= f' <= 1.2 /\
    2 * PI / 3 - 0.3 <= angle' - angle <= 2 * PI / 3 + 0.3 /\
    0 < 2 * PI / 3 - 0.3.
Proof.
  assert (Hrange : forall n : nat, 0 <= (fun _ : nat => 0.5) n < 1)
    by (intros n; lra).
  assert (Hcos : cos (59.33 * PI / 180) <> 0).
  { apply Rgt_not_eq. apply cos_between_poles. lra. }
  assert (H0 : (0 <= 0)%Z) by lia.
  assert (H1 : (0 + 1 < Math.max 3 (Math.min 5 (3 + 0)))%Z)
    by (unfold Math.max, Math.min; lia).
  split; [ exact Hrange | ].
  split; [ exact Hcos | split; [ exact H0 | split; [ exact H1 | ] ] ].
  exact (generateLoopWaypoints_consecutive_directions (fun _ => 0.5)
           {| lat := 59.33; lon := 18.06 |} 4 0%Z emptyWorld 0%Z
           Hrange Hcos H0 H1).
Defined.

(** ** Waypoints against the start of a loop *)

Lemma loop_waypoints_off_start randomOutcome start targetDistanceKm
  variationIndex w :
  (forall n, 0 <= randomOutcome n < 1) ->
  0 < targetDistanceKm ->
  cos (lat start * PI / 180) <> 0 ->
  Forall (fun p => p <> start)
    (fst (generateLoopWaypoints randomOutcome start targetDistanceKm
            variationIndex w)).
Proof.
  intros Hrange HD Hcos. pose proof PI_bounds as HPI.
  pose proof (loop_waypoints_annulus randomOutcome start targetDistanceKm
                variationIndex w Hrange (Rlt_le _ _ HD) Hcos) as Hann.
  simpl in Hann. eapply Forall_impl; [ | exact Hann ].
  intros p (radius & [Hlow _] & Hcircle) ->.
  assert (Hbase : 0 < targetDistanceKm / (2 * PI) * 1.5).
  { apply Rmult_lt_0_compat; [ | lra ].
    apply Rmult_lt_0_compat; [ exact HD | ].
    apply Rinv_0_lt_compat. lra. }
  unfold Rsqr in Hcircle.
  replace ((lat start - lat start) * 111 * ((lat start - lat start) * 111)
           + (lon start - lon start) * (111 * cos (lat start * PI / 180))
             * ((lon start - lon start) * (111 * cos (lat start * PI / 180))))
    with 0 in Hcircle by ring.
  nra.
Qed.

(** C9, amended. In loop mode, when every draw is in [0, 1), the start is
    a coordinate strictly between the poles, with a longitude between -180
    and 180, and the target distance is at least one metre, no waypoint of
    a route that [generateRoutes] makes equals [start]. *)
Theorem loop_waypoints_differ_from_start :
  forall randomOutcome (start : Coordinate) (numRoutes : Z)
         (distanceKm : number) (w : World),
    (forall n, 0 <= randomOutcome n < 1) ->
    -90 < lat start < 90 ->
    -180 <= lon start <= 180 ->
    0.001 <= distanceKm ->
    Forall
      (fun route => Forall (fun p => p <> start) (waypoints route))
      (fst (generateRoutes randomOutcome start None numRoutes distanceKm w)).
Proof.
  intros randomOutcome start N D w Hrange Hlat _ HD.
  assert (Hcos : cos (lat start * PI / 180) <> 0).
  { apply Rgt_not_eq. now apply cos_between_poles. }
  unfold generateRoutes, for_push.
  forall_pushed.
  intros j w0. unfold bind.
  pose proof (loop_waypoints_off_start randomOutcome start D j w0 Hrange
                ltac:(lra) Hcos) as Hoff.
  destruct (generateLoopWaypoints _ _ _ _ _) as [wps w1].
  simpl in *. exact Hoff.
Qed.

Lemma loop_waypoints_differ_from_start_witness :
  (forall n : nat, 0 <= (fun _ : nat => 0.5) n < 1) /\
  -90 < 59.33 < 90 /\
  -180 <= 18.06 <= 180 /\
  0.001 <= 4 /\
  Forall
    (fun route =>
       Forall (fun p => p <> {| lat := 59.33; lon := 18.06 |})
         (waypoints route))
    (fst (generateRoutes (fun _ => 0.5) {| lat := 59.33; lon := 18.06 |} None
            2 4 emptyWorld)).
Proof.
  assert (Hrange : forall n : nat, 0 <= (fun _ : nat => 0.5) n < 1)
    by (intros n; lra).
  assert (Hlat : -90 < 59.33 < 90) by lra.
  assert (Hlon : -180 <= 18.06 <= 180) by lra.
  assert (HD : 0.001 <= 4) by lra.
  split; [ exact Hrange | ].
  split; [ exact Hlat | split; [ exact Hlon | split; [ exact HD | ] ] ].
  exact (loop_waypoints_differ_from_start (fun _ => 0.5)
           {| lat := 59.33; lon := 18.06 |} 2%Z 4 emptyWorld
           Hrange Hlat Hlon HD).
Defined.

(** ** Distances and waypoint counts clear of the antipode *)

Lemma calculateDistance_self (a : Coordinate) : calculateDistance a a = 0.
Proof.
  unfold calculateDistance, Math.sin, Math.sqrt.
  replace ((lat a - lat a) * Math.PI / 180 / 2) with 0 by lra.
  replace ((lon a - lon a) * Math.PI / 180 / 2) with 0 by lra.
  rewrite sin_0, !Rmult_0_r, Rplus_0_r, Rminus_0_r, sqrt_0, sqrt_1.
  rewrite atan2_0_1. ring.
Qed.

(** X20. Between two coordinates that are clear of the antipode of each
    other, [calculateDistance] gives the same distance in both directions;
    from a coordinate to itself it gives 0. *)
Theorem calculateDistance_sym_and_self :
  (forall a b : Coordinate,
      clearOfAntipode a b -> calculateDistance a b = calculateDistance b a) /\
  (forall a : Coordinate, calculateDistance a a = 0).
Proof.
  split.
  - intros a b _. apply calculateDistance_sym.
  - apply calculateDistance_self.
Qed.

Lemma calculateDistance_sym_and_self_witness :
  clearOfAntipode {| lat := 0; lon := 0 |} {| lat := 0; lon := 0.09 |} /\
  calculateDistance {| lat := 0; lon := 0 |} {| lat := 0; lon := 0.09 |}
  = calculateDistance {| lat := 0; lon := 0.09 |} {| lat := 0; lon := 0 |}.
Proof.
  split; [ exact clearOfAntipode_example | ].
  exact (proj1 calculateDistance_sym_and_self {| lat := 0; lon := 0 |}
           {| lat := 0; lon := 0.09 |} clearOfAntipode_example).
Defined.

(** X21. Between a start and an end that are clear of the antipode of each
    other, when half of what the target distance exceeds the direct
    distance by lies between [n + 0.000001] and [n + 0.999999] for an
    integer [n], every point-to-point route has [max(1, n)] waypoints,
    between [start] and [end]. *)
Theorem point_to_point_waypoint_count :
  forall randomOutcome (start end_ : Coordinate) (numRoutes : Z)
         (distanceKm : number) (w : World) (n : Z),
    clearOfAntipode start end_ ->
    IZR n + 0.000001 <= (distanceKm - calculateDistance start end_) / 2
      <= IZR n + 0.999999 ->
    Forall
      (fun route =>
         List.length (waypoints route) = Z.to_nat (Z.max 1 n) /\
         points route = start :: waypoints route ++ [end_])
      (fst (generateRoutes randomOutcome start (Some end_) numRoutes
              distanceKm w)).
Proof.
  intros randomOutcome start end_ N D w n _ Hhalf.
  apply Forall_forall. intros route Hin.
  apply In_nth_error in Hin. destruct Hin as [k Hk].
  apply generateRoutes_route_shape in Hk. destruct Hk as [Hpoints Hlen].
  unfold waypointsAsked in Hlen.
  rewrite (waypointCount_between _ n) in Hlen by lra.
  split; [ exact Hlen | exact Hpoints ].
Qed.

Lemma point_to_point_waypoint_count_witness :
  clearOfAntipode {| lat := 0; lon := 0 |} {| lat := 0; lon := 0.09 |} /\
  2 + 0.000001
    <= (15 - calculateDistance {| lat := 0; lon := 0 |}
               {| lat := 0; lon := 0.09 |}) / 2
    <= 2 + 0.999999 /\
  Forall
    (fun route =>
       List.length (waypoints route) = 2%nat /\
       points route
       = {| lat := 0; lon := 0 |}
         :: waypoints route ++ [ {| lat := 0; lon := 0.09 |} ])
    (fst (generateRoutes (fun _ => 0.5) {| lat := 0; lon := 0 |}
            (Some {| lat := 0; lon := 0.09 |}) 3 15 emptyWorld)).
Proof.
  assert (Hhalf : 2 + 0.000001
                  <= (15 - calculateDistance {| lat := 0; lon := 0 |}
                             {| lat := 0; lon := 0.09 |}) / 2
                  <= 2 + 0.999999).
  { rewrite calculateDistance_example. pose proof PI_bounds. lra. }
  split; [ exact clearOfAntipode_example | split; [ exact Hhalf | ] ].
  exact (point_to_point_waypoint_count (fun _ => 0.5) {| lat := 0; lon := 0 |}
           {| lat := 0; lon := 0.09 |} 3%Z 15 emptyWorld 2%Z
           clearOfAntipode_example Hhalf).
Defined.
